(** * Evolutionary search controller of [evolving_rl/evolution.py]

  A shallow embedding of [DAGPointMutator] and [CGSRegularizedEvolution]:
  Python lists are Rocq lists, Python [int]s are [Z] (or [nat] where the
  source can only produce a non-negative index), Python [float]s are the
  binary64 primitive floats, the mutable objects of a run (the module-level
  [random] generator, the log, the mutator's [output_dict], the controller's
  population and its own generator) live in one explicit [World] that every
  method threads, and exceptions are results. *)

From Stdlib Require Import ZArith List Bool Lia Floats Permutation.
Import ListNotations.

Set Implicit Arguments.

(** ** Python values and containers *)

Module Py.

Inductive Exn : Type :=
| IndexError
| ValueError
| AssertionError.

(** The outcome of running a piece of Python: a value, a raised exception,
    or (for the unbounded loops: the retry loop of [mutate] and the redraw
    loop of [random.sample]) no answer within the number of iterations that
    was granted. *)
Inductive Result (A : Type) : Type :=
| Ok (a : A)
| Raise (e : Exn)
| OutOfFuel.

Arguments Ok {A} a.
Arguments Raise {A} e.
Arguments OutOfFuel {A}.

(** [len(l)] as a Python int. *)
Definition len {A} (l : list A) : Z := Z.of_nat (length l).

(** [list(range(a, b))]. *)
Definition range (a b : Z) : list Z :=
  map (fun i => (a + Z.of_nat i)%Z) (seq 0 (Z.to_nat (b - a))).

(** [l[i]]: a negative index counts from the end, anything outside raises. *)
Definition getitem {A} (l : list A) (i : Z) : Result A :=
  let j := (if i <? 0 then i + len l else i)%Z in
  if (j <? 0)%Z then Raise IndexError
  else match nth_error l (Z.to_nat j) with
       | Some x => Ok x
       | None => Raise IndexError
       end.

(** [l[:j]]: a negative bound counts from the end and the bound is clamped
    to the list. *)
Definition slice_to {A} (l : list A) (j : Z) : list A :=
  let j' := (if j <? 0 then Z.max 0 (j + len l) else Z.min j (len l))%Z in
  firstn (Z.to_nat j') l.

(** [del l[-1]]. *)
Definition del_last {A} (l : list A) : Result (list A) :=
  match l with
  | [] => Raise IndexError
  | _ => Ok (removelast l)
  end.

(** [x in l] for a list of ints. *)
Definition mem_int (x : Z) (l : list Z) : bool := existsb (Z.eqb x) l.

(** [l.index(x)], for an [x] known to be in [l]: the first position. *)
Fixpoint index {A} (eqb : A -> A -> bool) (x : A) (l : list A) : nat :=
  match l with
  | [] => 0
  | y :: t => if eqb y x then 0 else S (index eqb x t)
  end.

(** [[l[i] for i in idxs]] for non-negative indices. *)
Fixpoint gather {A} (l : list A) (idxs : list nat) : Result (list A) :=
  match idxs with
  | [] => Ok []
  | i :: t =>
      match nth_error l i with
      | None => Raise IndexError
      | Some x =>
          match gather l t with
          | Ok xs => Ok (x :: xs)
          | Raise e => Raise e
          | OutOfFuel => OutOfFuel
          end
      end
  end.

End Py.
Import Py.

(** ** Floats as numpy and Python see them *)

Module Np.

Local Open Scope float_scope.

(** [np.finfo(np.float32).max] and [.min], as binary64 values. *)
Definition finfo_float32_max : float := 0x1.fffffep+127.
Definition finfo_float32_min : float := - finfo_float32_max.

Definition isnan (x : float) : bool := is_nan x.
Definition isinf (x : float) : bool := is_infinity x.

(** numpy's clip kernel: [min(max(x, lo), hi)] where both keep a NaN first
    argument. *)
Definition maximum (a b : float) : float :=
  if is_nan a then a else if b <? a then a else b.
Definition minimum (a b : float) : float :=
  if is_nan a then a else if a <? b then a else b.
Definition clip (x lo hi : float) : float := minimum (maximum x lo) hi.

(** Python's [sum] of a list of floats: left to right from [0]. *)
Definition sum (l : list float) : float := fold_left add l 0.

End Np.

(** ** The generators of the [random] module

  A generator is an oracle: an unbounded tape of raw draws and a cursor.
  Each library call reads the next raw draw, so every sequence of outcomes
  that the real generator can produce is the behaviour of some tape. *)

Module Random.

Record Rng : Type := { tape : nat -> N; cursor : nat }.

Definition next (r : Rng) : N * Rng :=
  (tape r (cursor r), {| tape := tape r; cursor := S (cursor r) |}).

(** [_randbelow(n)] for [n > 0]. *)
Definition randbelow (n : nat) (r : Rng) : nat * Rng :=
  let (x, r') := next r in (N.to_nat (x mod N.of_nat n), r').

(** [random()]: a 53-bit integer over 2^53. *)
Definition random (r : Rng) : float * Rng :=
  let (x, r') := next r in
  (div (of_uint63 (Uint63.of_Z (Z.of_N x mod 2 ^ 53))) 0x1p+53, r')%float.

(** [choice(seq)]. *)
Definition choice {A} (l : list A) (r : Rng) : Result A * Rng :=
  match l with
  | [] => (Raise IndexError, r)
  | _ =>
      let (i, r') := randbelow (length l) r in
      match nth_error l i with
      | Some x => (Ok x, r')
      | None => (Raise IndexError, r')
      end
  end.

(** Position [j] of [pool] overwritten with [x]. *)
Fixpoint set_nth {A} (pool : list A) (j : nat) (x : A) : list A :=
  match pool, j with
  | [], _ => []
  | _ :: t, 0 => x :: t
  | y :: t, S j' => y :: set_nth t j' x
  end.

(** The selection loop of [sample]: [k] rounds over a pool whose first [n]
    entries are still available; the chosen entry is returned and the last
    available one is moved into the vacancy. *)
Fixpoint sample_loop (k : nat) (pool : list nat) (n : nat) (r : Rng)
  : list nat * Rng :=
  match k with
  | 0 => ([], r)
  | S k' =>
      let (j, r1) := randbelow n r in
      let x := nth j pool 0 in
      let pool' := set_nth pool j (nth (n - 1) pool 0) in
      let (rest, r2) := sample_loop k' pool' (n - 1) r1 in
      (x :: rest, r2)
  end.

(** [4 ** ceil(log(m, 4))]: the smallest power of 4 that is at least [m]. *)
Fixpoint pow4_ceil_from (fuel p m : nat) : nat :=
  match fuel with
  | 0 => p
  | S fuel' => if m <=? p then p else pow4_ceil_from fuel' (4 * p) m
  end.

Definition pow4_ceil (m : nat) : nat := pow4_ceil_from m 1 m.

(** [setsize] of [sample]: up to this population size the pool loop runs. *)
Definition setsize (k : nat) : nat :=
  21 + (if 5 <? k then pow4_ceil (3 * k) else 0).

(** The inner loop of the other branch of [sample]: draw a position below
    [n] and draw again while it is already selected (at most [fuel] draws). *)
Fixpoint sample_redraw (fuel n : nat) (selected : list nat) (r : Rng)
  : Result nat * Rng :=
  match fuel with
  | 0 => (OutOfFuel, r)
  | S fuel' =>
      let (j, r') := randbelow n r in
      if existsb (Nat.eqb j) selected
      then sample_redraw fuel' n selected r'
      else (Ok j, r')
  end.

(** The selection loop of that branch: [k] rounds, each adding a position
    that is not yet in the set [selected]. *)
Fixpoint sample_set_loop (fuel k n : nat) (selected : list nat) (r : Rng)
  : Result (list nat) * Rng :=
  match k with
  | 0 => (Ok [], r)
  | S k' =>
      match sample_redraw fuel n selected r with
      | (Ok j, r1) =>
          match sample_set_loop fuel k' n (j :: selected) r1 with
          | (Ok rest, r2) => (Ok (j :: rest), r2)
          | (Raise e, r2) => (Raise e, r2)
          | (OutOfFuel, r2) => (OutOfFuel, r2)
          end
      | (Raise e, r1) => (Raise e, r1)
      | (OutOfFuel, r1) => (OutOfFuel, r1)
      end
  end.

(** The positions that [sample(population, k)] selects in a population of
    [n] members: by the pool loop when [n <= setsize], by the set loop
    otherwise. *)
Definition sample_positions (fuel n k : nat) (r : Rng)
  : Result (list nat) * Rng :=
  if n <=? setsize k
  then let (ps, r') := sample_loop k (seq 0 n) n r in (Ok ps, r')
  else sample_set_loop fuel k n [] r.

(** [sample(population, k)]: [ValueError] unless [0 <= k <= len(population)],
    else the members at the selected positions, in selection order. *)
Definition sample {A} (fuel : nat) (population : list A) (k : Z) (r : Rng)
  : Result (list A) * Rng :=
  if ((k <? 0) || (len population <? k))%Z then (Raise ValueError, r)
  else
    match sample_positions fuel (length population) (Z.to_nat k) r with
    | (Ok ps, r') => (gather population ps, r')
    | (Raise e, r') => (Raise e, r')
    | (OutOfFuel, r') => (OutOfFuel, r')
    end.

(** *** Vocabulary for the draws of [sample] *)










End Random.

(** ** Program specifications and the external collaborators *)

(** [ProgramSpec] of [program_search]: the DAG as (operator index, input
    indices) pairs in dependency order, and the metadata the mutator attaches. *)
Record ProgramSpec : Type := {
  program_lst : list (nat * list nat);
  loss_weight : float;
  duplicate : bool;
  reward : float;
  hash_output : float
}.

(** What the source imports from [ops], [program], [program_search], pyglove
    and TensorFlow and only uses through these operations. *)
Class Collaborators : Type := {
  (** [ops.Node] instances, operator classes and output data types. *)
  Node : Type;
  OpCls : Type;
  DType : Type;
  OpCls_eq_dec : forall a b : OpCls, {a = b} + {a <> b};
  DType_eq_dec : forall a b : DType, {a = b} + {a <> b};
  LossOpNode : OpCls;
  isinstance : Node -> OpCls -> bool;
  odtype : Node -> DType;
  loss_weights : Node -> list float;
  (** [op_cls.precheck_valid_input(input_ops)]. *)
  precheck_valid_input : OpCls -> list Node -> bool;
  (** [op_cls(input_idxs=.., input_dtypes=..).odtype]. *)
  new_op_odtype : OpCls -> list nat -> list DType -> DType;
  (** [get_possible_input_idxs(op_cls, range(n))]. *)
  get_possible_input_idxs : OpCls -> nat -> list (list nat);
  (** The compiled program: its nodes, its leaves, and its flattened output
      on a batch of inputs. *)
  CompiledProgram : Type;
  Batch : Type;
  ops_lst : CompiledProgram -> list Node;
  find_leaf_nodes : CompiledProgram -> list Z;
  call_ravel : CompiledProgram -> list Batch -> list float;
  (** [build_program(input_nodes, program_spec, operators, 0)]. *)
  build_program :
    list Node -> ProgramSpec -> list OpCls -> Z -> CompiledProgram * bool;
  (** [sample_valid_program_spec(..)] takes no generator: whatever randomness
      it uses is the ambient one. *)
  ExistingOps : Type;
  sample_valid_program_spec :
    list Node -> ExistingOps -> Z -> list OpCls -> bool ->
    Random.Rng -> ProgramSpec * Random.Rng;
  (** The fields a [ProgramSpec(program_lst=..)] call leaves to their defaults. *)
  ProgramSpec_defaults : ProgramSpec;
  (** pyglove: the template codec and the DNA operations the source calls. *)
  DNA : Type;
  DNASpec : Type;
  template_decode : DNA -> ProgramSpec;
  template_encode : ProgramSpec -> DNA;
  dna_spec_of : DNA -> DNASpec;
  use_spec : DNA -> DNASpec -> DNA;
  clone : DNA -> DNA;
  (** [dna.to_json(compact=True)['value'][-1]]. *)
  to_json_value_last : DNA -> float;
  (** [round(x, 4)]. *)
  round4 : float -> float;
  (** [random.Random(seed)]. *)
  Random_of_seed : Z -> Random.Rng;
  (** [pg.DNAGenerator.setup(dna_spec)], the [super().setup] of the
      controller: it binds the specification and resets pyglove's own
      counters, which are no part of the state here, and returns or raises. *)
  DNAGenerator_setup : DNASpec -> Result unit
}.

Section Embedding.

Context {E : Collaborators}.

Definition OpCls_eqb (a b : OpCls) : bool :=
  if OpCls_eq_dec a b then true else false.

Definition DType_eqb (a b : DType) : bool :=
  if DType_eq_dec a b then true else false.

(** *** The mutable world *)

(** [output_dict]: float keys in insertion order.  A key is found by Python's
    [==] on floats. *)
Definition Dict : Type := list (float * float).

Definition key_eqb (a b : float) : bool := PrimFloat.eqb a b.

Fixpoint dict_get (d : Dict) (k : float) : option float :=
  match d with
  | [] => None
  | (k', v) :: t => if key_eqb k' k then Some v else dict_get t k
  end.

Definition dict_contains (d : Dict) (k : float) : bool :=
  match dict_get d k with Some _ => true | None => false end.

(** [k in d]: some key of [d] equals [k]. *)
Definition is_key (d : Dict) (k : float) : Prop :=
  exists k' v, In (k', v) d /\ key_eqb k' k = true.

(** [d[k]] is [r]: the entry of the first key that equals [k] holds [r]. *)
Definition stored (d : Dict) (k r : float) : Prop :=
  exists d1 k' d2,
    d = d1 ++ (k', r) :: d2 /\ key_eqb k' k = true /\
    forall k'' v, In (k'', v) d1 -> key_eqb k'' k = false.

(** [d[k] = v]: the first equal key keeps its place and gets the new value,
    a new key goes last. *)
Fixpoint dict_set (d : Dict) (k v : float) : Dict :=
  match d with
  | [] => [(k, v)]
  | (k', v') :: t =>
      if key_eqb k' k then (k', v) :: t else (k', v') :: dict_set t k v
  end.

(** [_Individual(dna, reward)]. *)
Record Individual : Type := { ind_dna : DNA; ind_reward : float }.

(** The [logging.info] calls of the module, without their timings. *)
Inductive LogRecord : Type :=
| LogDuplicateInDict (k : float)
| LogDecoding
| LogDuplicateCheck
| LogEncoding
| LogLossWeights (old new : float)
| LogUseSpec
| LogMutatingOp (op : Node)
| LogTried (count : nat)
| LogTookTime.

Record World : Type := {
  (** the state of the module-level generator of [random] *)
  py_random : Random.Rng;
  (** what was logged so far, oldest first *)
  logged : list LogRecord;
  (** [mutator.output_dict] *)
  output_dict : Dict;
  (** [controller._population], oldest first *)
  population : list Individual;
  (** [controller._random]: [None] when it is the [random] module itself *)
  own_random : option Random.Rng
}.

Definition M (A : Type) : Type := World -> Result A * World.

Definition ret {A} (a : A) : M A := fun w => (Ok a, w).

Definition raise {A} (e : Exn) : M A := fun w => (Raise e, w).

Definition out_of_fuel {A} : M A := fun w => (OutOfFuel, w).

Definition bind {A B} (m : M A) (k : A -> M B) : M B :=
  fun w =>
    match m w with
    | (Ok a, w') => k a w'
    | (Raise e, w') => (Raise e, w')
    | (OutOfFuel, w') => (OutOfFuel, w')
    end.

Definition lift {A} (r : Result A) : M A := fun w => (r, w).

End Embedding.

Declare Scope py_scope.
Delimit Scope py_scope with py.
Notation "x <- m ;; k" := (bind m (fun x => k))
  (at level 61, m at next level, right associativity) : py_scope.
Notation "' p <- m ;; k" := (bind m (fun x => let 'p := x in k))
  (at level 61, p pattern, m at next level, right associativity) : py_scope.
Notation "m ;;; k" := (bind m (fun _ => k))
  (at level 61, right associativity) : py_scope.

Section Mutator.

Context {E : Collaborators}.
Local Open Scope py_scope.

(** *** World accessors used by the methods *)

(** [logging.info(..)]. *)
Definition logging_info (r : LogRecord) : M unit :=
  fun w =>
    (Ok tt,
     {| py_random := py_random w;
        logged := logged w ++ [r];
        output_dict := output_dict w;
        population := population w;
        own_random := own_random w |}).

(** A draw from the module-level generator: [random.f(..)]. *)
Definition with_py_random {A} (f : Random.Rng -> A * Random.Rng) : M A :=
  fun w =>
    let (a, r') := f (py_random w) in
    (Ok a,
     {| py_random := r';
        logged := logged w;
        output_dict := output_dict w;
        population := population w;
        own_random := own_random w |}).

Definition read_output_dict : M Dict := fun w => (Ok (output_dict w), w).

Definition write_output_dict (d : Dict) : M unit :=
  fun w =>
    (Ok tt,
     {| py_random := py_random w;
        logged := logged w;
        output_dict := d;
        population := population w;
        own_random := own_random w |}).

(** *** DAGPointMutator *)

(** The members of the mutator and what [_on_bound] fixes once: the batch of
    random inputs and the fallback float.  ([output_dict] is in the world.) *)
Record DAGPointMutator : Type := {
  mutation_probability : float;
  input_nodes : list Node;
  num_freeze_ops : Z;
  operators : list OpCls;
  existing_ops : ExistingOps;
  program_length : Z;
  adjust_loss_weight : bool;
  random_inputs : list Batch;
  rand_float : float
}.

(** [np.random.uniform()] returns a value of the half-open interval [0, 1). *)
Definition uniform_range (x : float) : bool :=
  (PrimFloat.leb 0 x && PrimFloat.ltb x 1)%float.

Definition _compute_hash_output (self : DAGPointMutator)
    (program : CompiledProgram) : float :=
  let output := call_ravel program (random_inputs self) in
  let output_str := Np.sum (map round4 output) in
  let output_str :=
    if Np.isnan output_str || Np.isinf output_str
    then rand_float self else output_str in
  Np.clip output_str Np.finfo_float32_min Np.finfo_float32_max.

(** The sum that [_compute_hash_output] inspects, and whether it is NaN or
    infinite. *)
Definition raw_fingerprint (self : DAGPointMutator)
    (program : CompiledProgram) : float :=
  Np.sum (map round4 (call_ravel program (random_inputs self))).

Definition numerically_invalid (self : DAGPointMutator)
    (program : CompiledProgram) : bool :=
  Np.isnan (raw_fingerprint self program)
  || Np.isinf (raw_fingerprint self program).

Definition _check_duplicate (self : DAGPointMutator)
    (program : CompiledProgram) : M (float * bool * float) :=
  let output_str := _compute_hash_output self program in
  d <- read_output_dict ;;
  match dict_get d output_str with
  | Some r => ret (output_str, true, r)
  | None => ret (output_str, false, 0%float)
  end.

Definition update_output_dict (dna : DNA) (reward : float) : M unit :=
  let output_str := to_json_value_last dna in
  d <- read_output_dict ;;
  (if dict_contains d output_str
   then logging_info (LogDuplicateInDict output_str) else ret tt) ;;;
  write_output_dict (dict_set d output_str reward).

(** The mapping after the rewards of [calls] were recorded, in order, on top
    of [d]. *)
Definition recorded (calls : list (DNA * float)) (d : Dict) : Dict :=
  fold_left (fun d call => dict_set d (to_json_value_last (fst call)) (snd call))
            calls d.

Definition _sample_node_idx_to_mutate (self : DAGPointMutator)
    (loss_program : CompiledProgram) : M (Z * Z * Node) :=
  let idxs :=
    range (len (input_nodes self) + num_freeze_ops self)
          (len (ops_lst loss_program)) in
  idxs <- (if adjust_loss_weight self then ret idxs
           else lift (del_last idxs)) ;;
  r <- with_py_random (Random.choice idxs) ;;
  node_idx <- lift r ;;
  let n_idx := (node_idx - len (input_nodes self))%Z in
  op_to_mutate <- lift (getitem (ops_lst loss_program) node_idx) ;;
  logging_info (LogMutatingOp op_to_mutate) ;;;
  ret (node_idx, n_idx, op_to_mutate).

Definition _alter_continuous (program_lst : list (nat * list nat))
    (loss_program : CompiledProgram) : M ProgramSpec :=
  last_op <- lift (getitem (ops_lst loss_program) (-1)) ;;
  r <- with_py_random (Random.choice (loss_weights last_op)) ;;
  w <- lift r ;;
  ret {| program_lst := program_lst;
         loss_weight := w;
         duplicate := duplicate ProgramSpec_defaults;
         reward := reward ProgramSpec_defaults;
         hash_output := hash_output ProgramSpec_defaults |}.

(** [loss_program.ops_lst[:node_idx - 1]]. *)
Definition all_inputs_of (loss_program : CompiledProgram) (node_idx : Z)
  : list Node :=
  slice_to (ops_lst loss_program) (node_idx - 1).

(** [list(set(self.operators) - set([LossOpNode]))]: the catalogue without
    repetitions and without the loss operator (the order of a Python set is
    not specified; the catalogue's order is used here). *)
Definition possible_ops_of (self : DAGPointMutator) : list OpCls :=
  nodup OpCls_eq_dec
    (filter (fun c => negb (OpCls_eqb c LossOpNode)) (operators self)).

(** The body of the inner loop for one [input_idxs]: the pair to append to
    [valid_lst], if any. *)
Definition try_candidate (is_leaf : bool) (all_inputs : list Node)
    (op_to_replace : Node) (op_cls : OpCls) (op_idx : nat)
    (input_idxs : list nat) : Result (list (nat * list nat)) :=
  match gather all_inputs input_idxs with
  | Ok input_ops =>
      let input_dtypes := map odtype input_ops in
      if precheck_valid_input op_cls input_ops then
        if is_leaf then Ok [(op_idx, input_idxs)]
        else
          if DType_eqb (new_op_odtype op_cls input_idxs input_dtypes)
                       (odtype op_to_replace)
          then Ok [(op_idx, input_idxs)]
          else Ok []
      else Ok []
  | Raise e => Raise e
  | OutOfFuel => OutOfFuel
  end.

(** The inner loop: all [input_idxs] of one operator class. *)
Fixpoint try_inputs (is_leaf : bool) (all_inputs : list Node)
    (op_to_replace : Node) (op_cls : OpCls) (op_idx : nat)
    (candidates : list (list nat)) : Result (list (nat * list nat)) :=
  match candidates with
  | [] => Ok []
  | input_idxs :: rest =>
      match try_candidate is_leaf all_inputs op_to_replace op_cls op_idx
                          input_idxs with
      | Ok here =>
          match try_inputs is_leaf all_inputs op_to_replace op_cls op_idx
                           rest with
          | Ok more => Ok (here ++ more)
          | Raise e => Raise e
          | OutOfFuel => OutOfFuel
          end
      | Raise e => Raise e
      | OutOfFuel => OutOfFuel
      end
  end.

(** The outer loop: [valid_lst] and [count] after all of [possible_ops]. *)
Fixpoint try_ops (self : DAGPointMutator) (is_leaf : bool)
    (all_inputs : list Node) (op_to_replace : Node)
    (possible_ops : list OpCls) : Result (list (nat * list nat) * nat) :=
  match possible_ops with
  | [] => Ok ([], 0)
  | op_cls :: rest =>
      let op_idx := index OpCls_eqb op_cls (operators self) in
      let candidates := get_possible_input_idxs op_cls (length all_inputs) in
      match try_inputs is_leaf all_inputs op_to_replace op_cls op_idx
                       candidates with
      | Ok here =>
          match try_ops self is_leaf all_inputs op_to_replace rest with
          | Ok (more, count) => Ok (here ++ more, length candidates + count)
          | Raise e => Raise e
          | OutOfFuel => OutOfFuel
          end
      | Raise e => Raise e
      | OutOfFuel => OutOfFuel
      end
  end.

(** [valid_lst] and [count] for a structural mutation of [node_idx]. *)
Definition valid_lst_of (self : DAGPointMutator)
    (loss_program : CompiledProgram) (node_idx : Z) (op_to_replace : Node)
  : Result (list (nat * list nat) * nat) :=
  let is_leaf := mem_int node_idx (find_leaf_nodes loss_program) in
  let all_inputs := all_inputs_of loss_program node_idx in
  try_ops self is_leaf all_inputs op_to_replace (possible_ops_of self).

(** The splice: position [n_idx] of [program_lst] replaced. *)
Fixpoint splice (program_lst : list (nat * list nat)) (i : Z) (n_idx : Z)
    (new : nat * list nat) : list (nat * list nat) :=
  match program_lst with
  | [] => []
  | old :: rest =>
      (if (i =? n_idx)%Z then new else old) :: splice rest (i + 1) n_idx new
  end.

(** [_alter_node_idx(dna, program_lst, loss_program)]; [dna] is not used by
    the method or by [_alter_continuous] and is left out. *)
Definition _alter_node_idx (self : DAGPointMutator)
    (program_lst : list (nat * list nat)) (loss_program : CompiledProgram)
  : M ProgramSpec :=
  '(node_idx, n_idx, op_to_replace) <-
     _sample_node_idx_to_mutate self loss_program ;;
  if isinstance op_to_replace LossOpNode
  then _alter_continuous program_lst loss_program
  else
    '(valid_lst, count) <-
       lift (valid_lst_of self loss_program node_idx op_to_replace) ;;
    logging_info (LogTried count) ;;;
    logging_info LogTookTime ;;;
    r <- with_py_random (Random.choice valid_lst) ;;
    chosen <- lift r ;;
    ret {| program_lst := splice program_lst 0 n_idx chosen;
           loss_weight := loss_weight ProgramSpec_defaults;
           duplicate := duplicate ProgramSpec_defaults;
           reward := reward ProgramSpec_defaults;
           hash_output := hash_output ProgramSpec_defaults |}.

(** The [while True] loop of [mutate], for at most [fuel] iterations. *)
Fixpoint mutate_loop (fuel : nat) (self : DAGPointMutator)
    (old_spec : DNASpec) (program_spec : ProgramSpec)
    (loss_program : CompiledProgram) : M DNA :=
  match fuel with
  | 0 => out_of_fuel
  | S fuel' =>
      new_program_spec <-
        _alter_node_idx self (program_lst program_spec) loss_program ;;
      let '(new_loss_program, valid) :=
        build_program (input_nodes self) new_program_spec (operators self) 0 in
      if negb valid
      then mutate_loop fuel' self old_spec program_spec loss_program
      else
        '(hash_string, duplicate, reward) <-
           _check_duplicate self new_loss_program ;;
        logging_info LogDuplicateCheck ;;;
        let new_dna :=
          template_encode
            {| program_lst := program_lst new_program_spec;
               loss_weight := loss_weight new_program_spec;
               duplicate := duplicate;
               reward := reward;
               hash_output := hash_string |} in
        logging_info LogEncoding ;;;
        logging_info (LogLossWeights (loss_weight program_spec)
                                     (loss_weight new_program_spec)) ;;;
        if valid
        then
          let new_dna := use_spec new_dna old_spec in
          logging_info LogUseSpec ;;; ret new_dna
        else mutate_loop fuel' self old_spec program_spec loss_program
  end.

Definition mutate (fuel : nat) (self : DAGPointMutator) (dna : DNA) : M DNA :=
  let old_spec := dna_spec_of dna in
  coin <- with_py_random Random.random ;;
  if PrimFloat.ltb coin (mutation_probability self)
  then
    let program_spec := template_decode dna in
    logging_info LogDecoding ;;;
    let '(loss_program, _) :=
      build_program (input_nodes self) program_spec (operators self) 0 in
    mutate_loop fuel self old_spec program_spec loss_program
  else
    program_spec <-
      with_py_random
        (sample_valid_program_spec (input_nodes self) (existing_ops self)
           (program_length self) (operators self) (adjust_loss_weight self)) ;;
    let dna := template_encode program_spec in
    ret (use_spec dna old_spec).

End Mutator.

Section Controller.

Context {E : Collaborators}.
Local Open Scope py_scope.

(** *** CGSRegularizedEvolution *)

Record CGSRegularizedEvolution : Type := {
  population_size : Z;
  tournament_size : Z;
  mutator : DAGPointMutator;
  seed : option Z;
  dna_spec : DNASpec
}.

Definition py_assert (b : bool) : M unit :=
  if b then ret tt else raise AssertionError.

Definition read_population : M (list Individual) :=
  fun w => (Ok (population w), w).

Definition write_population (p : list Individual) : M unit :=
  fun w =>
    (Ok tt,
     {| py_random := py_random w;
        logged := logged w;
        output_dict := output_dict w;
        population := p;
        own_random := own_random w |}).

(** A draw from [self._random]: the controller's own generator when it has
    one, the module-level generator otherwise. *)
Definition with_self_random {A} (f : Random.Rng -> A * Random.Rng) : M A :=
  fun w =>
    match own_random w with
    | Some r =>
        let (a, r') := f r in
        (Ok a,
         {| py_random := py_random w;
            logged := logged w;
            output_dict := output_dict w;
            population := population w;
            own_random := Some r' |})
    | None => with_py_random f w
    end.

(** [setup(dna_spec)]: the call of [super().setup(dna_spec)], the two
    assertions, the empty population and the generator.  The specification
    passed is the one the controller record holds as [dna_spec]. *)
Definition setup (self : CGSRegularizedEvolution) : M unit :=
  lift (DNAGenerator_setup (dna_spec self)) ;;;
  py_assert (2 <=? tournament_size self)%Z ;;;
  py_assert (tournament_size self <=? population_size self)%Z ;;;
  fun w =>
    (Ok tt,
     {| py_random := py_random w;
        logged := logged w;
        output_dict := output_dict w;
        population := [];
        own_random :=
          match seed self with
          | None => None
          | Some s => Some (Random_of_seed s)
          end |}).

(** [max(tournament, key=lambda i: i.reward)]: the first member that no later
    member exceeds. *)
Fixpoint max_from (best : Individual) (rest : list Individual) : Individual :=
  match rest with
  | [] => best
  | x :: t =>
      if PrimFloat.ltb (ind_reward best) (ind_reward x)
      then max_from x t else max_from best t
  end.

Definition max_by_reward (tournament : list Individual) : Result Individual :=
  match tournament with
  | [] => Raise ValueError
  | x :: t => Ok (max_from x t)
  end.

(** The tournament of [propose] and the individual it selects.  (A reward is
    a float here, so the assertion that no reward is [None] always holds.) *)
Definition select_parent (fuel : nat) (self : CGSRegularizedEvolution)
  : M (list Individual * Individual) :=
  pop <- read_population ;;
  py_assert (len pop =? population_size self)%Z ;;;
  r <- with_self_random (Random.sample fuel pop (tournament_size self)) ;;
  tournament <- lift r ;;
  selected <- lift (max_by_reward tournament) ;;
  ret (tournament, selected).

Definition propose (fuel : nat) (self : CGSRegularizedEvolution) : M DNA :=
  pop <- read_population ;;
  if (len pop <? population_size self)%Z
  then
    let m := mutator self in
    program_spec <-
      with_py_random
        (sample_valid_program_spec (input_nodes m) (existing_ops m)
           (program_length m) (operators m) (adjust_loss_weight m)) ;;
    let dna := template_encode program_spec in
    ret (use_spec dna (dna_spec self))
  else
    '(_, selected) <- select_parent fuel self ;;
    let parent := clone (ind_dna selected) in
    let parent := use_spec parent (dna_spec self) in
    mutate fuel (mutator self) parent.

(** The eviction loop of [feedback]: [popleft] while the population is larger
    than [population_size]. *)
Fixpoint evict (size : Z) (pop : list Individual) : list Individual :=
  match pop with
  | [] => []
  | _ :: rest => if (size <? len pop)%Z then evict size rest else pop
  end.

Definition feedback (self : CGSRegularizedEvolution) (dna : DNA)
    (reward : float) : M unit :=
  update_output_dict dna reward ;;;
  pop <- read_population ;;
  let pop := pop ++ [{| ind_dna := dna; ind_reward := reward |}] in
  if (population_size self <? 0)%Z
  then write_population [] ;;; raise IndexError
  else write_population (evict (population_size self) pop).

(** The individual that [feedback(dna, reward)] appends. *)
Definition individual_of (call : DNA * float) : Individual :=
  {| ind_dna := fst call; ind_reward := snd call |}.

(** A sequence of [feedback] calls, in order. *)
Fixpoint feedbacks (self : CGSRegularizedEvolution)
    (calls : list (DNA * float)) : M unit :=
  match calls with
  | [] => ret tt
  | call :: rest =>
      feedback self (fst call) (snd call) ;;; feedbacks self rest
  end.

(** The external search loop: [n] rounds of [propose], evaluation and
    [feedback]; the genomes proposed, in order. *)
Fixpoint search_loop (fuel : nat) (self : CGSRegularizedEvolution)
    (evaluate : DNA -> float) (n : nat) : M (list DNA) :=
  match n with
  | 0 => ret []
  | S n' =>
      dna <- propose fuel self ;;
      feedback self dna (evaluate dna) ;;;
      rest <- search_loop fuel self evaluate n' ;;
      ret (dna :: rest)
  end.

(** The world of a process whose module-level generator is in state
    [ambient] and that has not yet logged or recorded anything. *)
Definition initial_world (ambient : Random.Rng) : World :=
  {| py_random := ambient;
     logged := [];
     output_dict := [];
     population := [];
     own_random := None |}.

(** A run: [setup], then [n] rounds of the search loop. *)
Definition run (fuel : nat) (self : CGSRegularizedEvolution)
    (evaluate : DNA -> float) (n : nat) (ambient : Random.Rng)
  : Result (list DNA) * World :=
  (setup self ;;; search_loop fuel self evaluate n) (initial_world ambient).

(** The world with the controller's part (population and own generator)
    replaced. *)
Definition set_controller_state (p : list Individual)
    (o : option Random.Rng) (w : World) : World :=
  {| py_random := py_random w;
     logged := logged w;
     output_dict := output_dict w;
     population := p;
     own_random := o |}.

(** The world with the module-level generator and the log replaced. *)
Definition set_ambient (r : Random.Rng) (l : list LogRecord) (w : World)
  : World :=
  {| py_random := r;
     logged := l;
     output_dict := output_dict w;
     population := population w;
     own_random := own_random w |}.

(** The generator behind [self._random], and the world after that generator
    moved on to state [r]. *)
Definition self_random (w : World) : Random.Rng :=
  match own_random w with
  | Some r => r
  | None => py_random w
  end.

Definition advance_self_random (r : Random.Rng) (w : World) : World :=
  match own_random w with
  | Some _ => set_controller_state (population w) (Some r) w
  | None => set_ambient r (logged w) w
  end.

(** A computation that neither reads nor writes the controller's part of the
    world and does not write [output_dict]. *)
Definition mutator_frame {A} (m : M A) : Prop :=
  forall w p o,
    m (set_controller_state p o w) =
      (fst (m w), set_controller_state p o (snd (m w))) /\
    output_dict (snd (m w)) = output_dict w.

(** A computation that does not write [output_dict]. *)
Definition keeps_output_dict {A} (m : M A) : Prop :=
  forall w, output_dict (snd (m w)) = output_dict w.

End Controller.

(** ** A small search space on which the definitions run

    One input node, the operator catalogue [Loss; A; B; Nan; Inf], unary
    operators that accept any earlier node, and a builder that lays the nodes
    out in program order.  The flattened output of a program is one number
    per operator: its catalogue index, except that [Nan] yields a NaN and
    [Inf] an infinity. *)

Module Toy.

Definition float_of_nat (n : nat) : float :=
  of_uint63 (Uint63.of_Z (Z.of_nat n)).

(** A node: its operator class and its output data type. *)
Definition node : Type := nat * nat.

Record program : Type := {
  nodes : list node;
  leaves : list Z;
  outputs : list float
}.

Definition op_output (op_idx : nat) : float :=
  match op_idx with
  | 3 => nan
  | 4 => infinity
  | n => float_of_nat n
  end.

Definition build (input_nodes : list node) (spec : ProgramSpec)
    (operators : list nat) (offset : Z) : program * bool :=
  let ops :=
    map (fun p : nat * list nat =>
           let c := nth (fst p) operators 0 in (c, c))
        (program_lst spec) in
  ({| nodes := input_nodes ++ ops;
      leaves := [(len (input_nodes ++ ops) - 1)%Z];
      outputs := map (fun p : nat * list nat => op_output (fst p))
                     (program_lst spec) |},
   true).

Definition defaults : ProgramSpec :=
  {| program_lst := [];
     loss_weight := 1%float;
     duplicate := false;
     reward := 0%float;
     hash_output := 0%float |}.

(** The sampler always answers with the chain input -> A -> B -> Loss. *)
Definition fresh_spec : ProgramSpec :=
  {| program_lst := [(1, [0]); (2, [1]); (0, [2])];
     loss_weight := 1%float;
     duplicate := false;
     reward := 0%float;
     hash_output := 0%float |}.

Definition collaborators : Collaborators :=
  {| Node := node;
     OpCls := nat;
     DType := nat;
     OpCls_eq_dec := Nat.eq_dec;
     DType_eq_dec := Nat.eq_dec;
     LossOpNode := 0;
     isinstance := fun n c => Nat.eqb (fst n) c;
     odtype := fun n => snd n;
     loss_weights := fun _ => [0.5%float; 1.5%float];
     precheck_valid_input := fun _ _ => true;
     new_op_odtype := fun c _ _ => c;
     get_possible_input_idxs := fun _ n => map (fun i => [i]) (seq 0 n);
     CompiledProgram := program;
     Batch := unit;
     ops_lst := nodes;
     find_leaf_nodes := leaves;
     call_ravel := fun p _ => outputs p;
     build_program := build;
     ExistingOps := unit;
     sample_valid_program_spec := fun _ _ _ _ _ r => (fresh_spec, r);
     ProgramSpec_defaults := defaults;
     DNA := ProgramSpec * nat;
     DNASpec := nat;
     template_decode := fst;
     template_encode := fun p => (p, 0);
     dna_spec_of := snd;
     use_spec := fun d s => (fst d, s);
     clone := fun d => d;
     to_json_value_last := fun d => hash_output (fst d);
     round4 := fun x => x;
     Random_of_seed :=
       fun s => {| Random.tape := fun i => (Z.to_N s + N.of_nat i)%N;
                   Random.cursor := 0 |};
     DNAGenerator_setup := fun _ => Ok tt |}.

#[local] Existing Instance collaborators.

Definition input_node : node := (9, 1).

Definition the_mutator : @DAGPointMutator collaborators :=
  {| mutation_probability := 0x1.999999999999ap-1%float; (* 0.8 *)
     input_nodes := [input_node];
     num_freeze_ops := 0;
     operators := [0; 1; 2; 3; 4];
     existing_ops := tt;
     program_length := 3;
     adjust_loss_weight := true;
     random_inputs := [tt];
     rand_float := 0.25%float |}.

Definition the_controller : @CGSRegularizedEvolution collaborators :=
  {| population_size := 2;
     tournament_size := 2;
     mutator := the_mutator;
     seed := Some 7%Z;
     dna_spec := 0 |}.

(** A generator whose first draws are [draws] and whose later draws are 0. *)
Definition rng_of (draws : list N) : Random.Rng :=
  {| Random.tape := fun i => nth i draws 0%N; Random.cursor := 0 |}.

Definition world_of (draws : list N) (d : list (float * float))
    (pop : list (@Individual collaborators))
    (own : option Random.Rng) : @World collaborators :=
  {| py_random := rng_of draws;
     logged := [];
     output_dict := d;
     population := pop;
     own_random := own |}.

(** The chain input -> A -> B -> Loss, compiled, and its genome. *)
Definition chain : program := fst (build [input_node] fresh_spec [0; 1; 2; 3; 4] 0).

Definition chain_dna : ProgramSpec * nat := (fresh_spec, 0).

(** Two numerically invalid programs: input -> Nan -> Loss and
    input -> Inf -> Loss. *)
Definition nan_spec : ProgramSpec :=
  {| program_lst := [(3, [0]); (0, [1])];
     loss_weight := 1%float;
     duplicate := false;
     reward := 0%float;
     hash_output := 0%float |}.

Definition inf_spec : ProgramSpec :=
  {| program_lst := [(4, [0]); (0, [1])];
     loss_weight := 1%float;
     duplicate := false;
     reward := 0%float;
     hash_output := 0%float |}.

Definition nan_program : program := fst (build [input_node] nan_spec [0; 1; 2; 3; 4] 0).
Definition inf_program : program := fst (build [input_node] inf_spec [0; 1; 2; 3; 4] 0).

End Toy.

(** ** Further vocabulary *)

Section Vocabulary.

Context {E : Collaborators}.

(** The fingerprint under which [feedback(dna, reward)] records. *)
Definition key_of (call : DNA * float) : float :=
  to_json_value_last (fst call).

(** No two entries of the mapping have equal keys (as in a Python dict). *)
Definition distinct_keys (d : Dict) : Prop :=
  ForallOrdPairs (fun a b => key_eqb (fst a) (fst b) = false) d.

(** The world [w] with everything but the mapping replaced. *)
Definition world_with (r : Random.Rng) (l : list LogRecord)
    (p : list Individual) (o : option Random.Rng) (w : World) : World :=
  {| py_random := r;
     logged := l;
     output_dict := output_dict w;
     population := p;
     own_random := o |}.

(** A computation of the mutator alone: its result, the state in which it
    leaves the module-level generator and the lines it logs are determined
    by the module-level generator and the mapping; it appends these lines to
    the log and leaves the mapping, the population and the controller's
    generator as they are. *)
Definition mutator_local {A} (m : M A) : Prop :=
  forall w, exists res r s, forall l p o,
    m (world_with (py_random w) l p o w) = (res, world_with r (l ++ s) p o w).

End Vocabulary.

(** * Properties *)

Unset Implicit Arguments.

(** ** The order of binary64 floats *)

Module FloatOrder.

Local Open Scope float_scope.

Lemma SFcompare_refl (s : spec_float) :
  s <> S754_nan -> SFcompare s s = Some Eq.
Proof.
  destruct s as [b | b | | b m e]; simpl; try congruence.
  - destruct b; reflexivity.
  - intros _. rewrite Z.compare_refl.
    assert (H : Pos.compare_cont Eq m m = Eq) by apply Pos.compare_cont_refl.
    destruct b; rewrite H; reflexivity.
Qed.

Lemma SFcompare_swap (s t : spec_float) :
  SFcompare t s = option_map CompOpp (SFcompare s t).
Proof.
  destruct s as [b | b | | b m e], t as [c | c | | c n f]; simpl;
    try reflexivity; try (destruct b; reflexivity); try (destruct c; reflexivity);
    try (destruct b, c; reflexivity).
  assert (H : Pos.compare_cont Eq n m = CompOpp (Pos.compare_cont Eq m n))
    by (rewrite Pos.compare_cont_antisym; reflexivity).
  destruct b, c; try reflexivity;
    rewrite (Z.compare_antisym e f), H;
    destruct (e ?= f)%Z; simpl; try reflexivity;
    destruct (Pos.compare_cont Eq m n); reflexivity.
Qed.

(** No comparison with a NaN holds. *)
Lemma leb_not_nan (x y : float) :
  (x <=? y) = true -> is_nan x = false /\ is_nan y = false.
Proof.
  rewrite leb_spec. unfold is_nan. rewrite !eqb_spec. unfold SFleb, SFeqb.
  intros H.
  assert (Hx : Prim2SF x <> S754_nan)
    by (intros Hn; rewrite Hn in H; discriminate).
  assert (Hy : Prim2SF y <> S754_nan)
    by (intros Hn; rewrite Hn in H; destruct (Prim2SF x); discriminate).
  rewrite (SFcompare_refl _ Hx), (SFcompare_refl _ Hy). auto.
Qed.

Lemma ltb_leb (x y : float) : (x <? y) = true -> (x <=? y) = true.
Proof.
  rewrite ltb_spec, leb_spec. unfold SFltb, SFleb.
  destruct (SFcompare (Prim2SF x) (Prim2SF y)) as [[ | | ] | ];
    intros; congruence.
Qed.

Lemma ltb_not_nan (x y : float) :
  (x <? y) = true -> is_nan x = false /\ is_nan y = false.
Proof. intros H. apply leb_not_nan, ltb_leb, H. Qed.

Lemma is_nan_Prim2SF (x : float) :
  is_nan x = false -> Prim2SF x <> S754_nan.
Proof.
  unfold is_nan. rewrite eqb_spec. unfold SFeqb. intros H Hn.
  rewrite Hn in H. discriminate.
Qed.


(** On floats that are not NaN the order is total. *)
Lemma not_ltb_leb (x y : float) :
  is_nan x = false -> is_nan y = false ->
  (x <? y) = false -> (y <=? x) = true.
Proof.
  intros Hx Hy. rewrite ltb_spec, leb_spec. unfold SFltb, SFleb.
  rewrite (SFcompare_swap (Prim2SF x) (Prim2SF y)).
  apply is_nan_Prim2SF in Hx. apply is_nan_Prim2SF in Hy.
  destruct (SFcompare (Prim2SF x) (Prim2SF y)) as [[ | | ] | ] eqn:Hc;
    simpl; try congruence.
  destruct (Prim2SF x), (Prim2SF y); simpl in Hc; congruence.
Qed.

Ltac split_compare :=
  repeat match goal with
    | |- context [(?a ?= ?b)%Z] => destruct (Z.compare_spec a b)
    | H : context [(?a ?= ?b)%Z] |- _ => destruct (Z.compare_spec a b)
    | |- context [Pos.compare_cont Eq ?a ?b] =>
        change (Pos.compare_cont Eq a b) with (Pos.compare a b);
        destruct (Pos.compare_spec a b)
    | H : context [Pos.compare_cont Eq ?a ?b] |- _ =>
        change (Pos.compare_cont Eq a b) with (Pos.compare a b) in H;
        destruct (Pos.compare_spec a b)
    end.


Lemma SFeqb_common (s t u : spec_float) :
  SFeqb s t = true -> SFeqb s u = true -> SFeqb t u = true.
Proof.
  unfold SFeqb.
  destruct s as [a | a | | a m1 e1], t as [b | b | | b m2 e2],
    u as [c | c | | c m3 e3]; simpl; try discriminate; try reflexivity;
    try (destruct a; discriminate || reflexivity);
    try (destruct b; discriminate || reflexivity);
    try (destruct c; discriminate || reflexivity);
    try (destruct a, b; discriminate || reflexivity);
    try (destruct b, c; discriminate || reflexivity);
    try (destruct a, c; discriminate || reflexivity);
    try (destruct a, b, c; discriminate || reflexivity).
  all: destruct a, b, c; try discriminate; try reflexivity.
  all: split_compare; simpl; intros; subst;
    try discriminate; try reflexivity; try lia.
Qed.

(** Floats equal to a common float are equal to each other. *)
Lemma eqb_common (x y z : float) :
  (x =? y) = true -> (x =? z) = true -> (y =? z) = true.
Proof. rewrite !eqb_spec. apply SFeqb_common. Qed.


End FloatOrder.

(** ** The fingerprint and the duplicate check *)

Section Fingerprint.

Context {E : Collaborators}.
Local Open Scope float_scope.

(** A draw of [np.random.uniform()] is neither NaN nor infinite. *)
Lemma uniform_range_finite (x : float) :
  uniform_range x = true -> is_nan x = false /\ is_infinity x = false.
Proof.
  unfold uniform_range. intros H. apply andb_prop in H as [H0 H1].
  split; [exact (proj2 (FloatOrder.leb_not_nan _ _ H0)) | ].
  unfold is_infinity. rewrite eqb_spec, abs_spec.
  rewrite leb_spec in H0. rewrite ltb_spec in H1.
  change (Prim2SF 0) with (S754_zero false) in H0.
  change (Prim2SF infinity) with (S754_infinity false).
  destruct (Prim2SF x) as [b | b | | b m e]; try discriminate; try reflexivity.
  destruct b; discriminate.
Qed.

(** Clipping a finite float to the float32 range yields a finite float of
    that range. *)
Lemma clip_float32 (x : float) :
  is_nan x = false -> is_infinity x = false ->
  let y := Np.clip x Np.finfo_float32_min Np.finfo_float32_max in
  is_nan y = false /\ is_infinity y = false /\
  (Np.finfo_float32_min <=? y) = true /\ (y <=? Np.finfo_float32_max) = true.
Proof.
  intros Hn Hi. unfold Np.clip, Np.maximum. rewrite Hn.
  destruct (Np.finfo_float32_min <? x) eqn:Hlo.
  - unfold Np.minimum. rewrite Hn.
    destruct (x <? Np.finfo_float32_max) eqn:Hhi; cbv zeta.
    + repeat split; auto using FloatOrder.ltb_leb.
    + repeat split; reflexivity.
  - cbv zeta. repeat split; reflexivity.
Qed.

Lemma _compute_hash_output_invalid self program :
  numerically_invalid self program = true ->
  _compute_hash_output self program =
  Np.clip (rand_float self) Np.finfo_float32_min Np.finfo_float32_max.
Proof.
  unfold numerically_invalid, raw_fingerprint, _compute_hash_output.
  intros H. rewrite H. reflexivity.
Qed.

Lemma _compute_hash_output_finite self program :
  uniform_range (rand_float self) = true ->
  let fp := _compute_hash_output self program in
  is_nan fp = false /\ is_infinity fp = false /\
  (Np.finfo_float32_min <=? fp) = true /\ (fp <=? Np.finfo_float32_max) = true.
Proof.
  intros Hu. unfold _compute_hash_output.
  destruct (Np.isnan _ || Np.isinf _) eqn:Hbad.
  - destruct (uniform_range_finite _ Hu). now apply clip_float32.
  - apply orb_false_elim in Hbad as [Hn Hi]. now apply clip_float32.
Qed.

(** C6. The fingerprint of every compiled program is a finite float inside
    the float32 range: it is not NaN, not infinite, and between
    [finfo(float32).min] and [finfo(float32).max]; when the sum of the
    rounded outputs is NaN or infinite, the fingerprint is the clipped
    fallback float drawn at setup.  The fallback float is a draw of
    [np.random.uniform()], a value of the interval [0, 1). *)
Theorem fingerprint_finite_float32 (self : DAGPointMutator)
    (program : CompiledProgram) :
  uniform_range (rand_float self) = true ->
  let fp := _compute_hash_output self program in
  Np.isnan fp = false /\ Np.isinf fp = false /\
  (Np.finfo_float32_min <=? fp) = true /\
  (fp <=? Np.finfo_float32_max) = true /\
  (numerically_invalid self program = true ->
   fp = Np.clip (rand_float self) Np.finfo_float32_min Np.finfo_float32_max).
Proof.
  intros Hu fp.
  destruct (_compute_hash_output_finite self program Hu) as (H1 & H2 & H3 & H4).
  repeat split; auto.
  apply _compute_hash_output_invalid.
Qed.

Lemma dict_get_stored (d : Dict) (k r : float) :
  dict_get d k = Some r <-> stored d k r.
Proof.
  induction d as [ | [k0 v0] d IH]; simpl.
  - split; [discriminate | ].
    intros (d1 & k' & d2 & Hd & _). destruct d1; discriminate.
  - destruct (key_eqb k0 k) eqn:Hk.
    + split.
      * intros [= ->]. exists [], k0, d. repeat split; auto.
        intros ? ? [].
      * intros (d1 & k' & d2 & Hd & Hk' & Hfirst).
        destruct d1 as [ | [k1 v1] d1]; simpl in Hd.
        -- now inversion Hd.
        -- inversion Hd; subst.
           rewrite (Hfirst k1 v1 (or_introl eq_refl)) in Hk. discriminate.
    + rewrite IH. split.
      * intros (d1 & k' & d2 & Hd & Hk' & Hfirst).
        exists ((k0, v0) :: d1), k', d2. subst d. repeat split; auto.
        intros k'' v [[= <- <-] | Hin]; eauto.
      * intros (d1 & k' & d2 & Hd & Hk' & Hfirst).
        destruct d1 as [ | [k1 v1] d1]; simpl in Hd.
        -- inversion Hd; subst. congruence.
        -- inversion Hd; subst. exists d1, k', d2. repeat split; auto.
           intros k'' v Hin. apply (Hfirst k'' v). now right.
Qed.

Lemma dict_get_is_key (d : Dict) (k : float) :
  is_key d k <-> exists r, dict_get d k = Some r.
Proof.
  induction d as [ | [k0 v0] d IH]; simpl.
  - split; [intros (? & ? & [] & _) | intros [? [=]]].
  - destruct (key_eqb k0 k) eqn:Hk.
    + split; [eauto | ]. intros _. exists k0, v0. split; [now left | exact Hk].
    + rewrite <- IH. split.
      * intros (k' & v & [[= <- <-] | Hin] & Hk'); [congruence | ].
        exists k', v. auto.
      * intros (k' & v & Hin & Hk'). exists k', v. split; [now right | exact Hk'].
Qed.

Lemma dict_get_set_same (d : Dict) (k v : float) :
  key_eqb k k = true -> dict_get (dict_set d k v) k = Some v.
Proof.
  intros Hk. induction d as [ | [k0 v0] d IH]; simpl.
  - now rewrite Hk.
  - destruct (key_eqb k0 k) eqn:H0; simpl; rewrite H0; auto.
Qed.

Lemma dict_get_set_other (d : Dict) (k' k v : float) :
  key_eqb k' k = false -> dict_get (dict_set d k' v) k = dict_get d k.
Proof.
  intros Hk. induction d as [ | [k0 v0] d IH]; simpl.
  - now rewrite Hk.
  - destruct (key_eqb k0 k') eqn:H0; simpl; [ | now rewrite IH].
    destruct (key_eqb k0 k) eqn:H1; [ | reflexivity].
    unfold key_eqb in *.
    rewrite (FloatOrder.eqb_common _ _ _ H0 H1) in Hk. discriminate.
Qed.

Lemma dict_get_recorded_other (calls : list (DNA * float)) (k : float) :
  Forall (fun call => key_eqb (to_json_value_last (fst call)) k = false)
         calls ->
  forall d, dict_get (recorded calls d) k = dict_get d k.
Proof.
  unfold recorded. induction 1 as [ | call calls Hc _ IH]; intros d; simpl.
  - reflexivity.
  - rewrite IH. now apply dict_get_set_other.
Qed.

Lemma update_output_dict_dict (dna : DNA) (reward : float) (w : World) :
  fst (update_output_dict dna reward w) = Ok tt /\
  output_dict (snd (update_output_dict dna reward w)) =
  dict_set (output_dict w) (to_json_value_last dna) reward /\
  population (snd (update_output_dict dna reward w)) = population w /\
  py_random (snd (update_output_dict dna reward w)) = py_random w /\
  own_random (snd (update_output_dict dna reward w)) = own_random w.
Proof.
  unfold update_output_dict, bind, read_output_dict.
  destruct (dict_contains (output_dict w) (to_json_value_last dna));
    simpl; auto.
Qed.

Lemma _check_duplicate_eq (self : DAGPointMutator) (program : CompiledProgram)
    (w : World) :
  _check_duplicate self program w =
  (match dict_get (output_dict w) (_compute_hash_output self program) with
   | Some r => Ok (_compute_hash_output self program, true, r)
   | None => Ok (_compute_hash_output self program, false, 0)
   end, w).
Proof.
  unfold _check_duplicate, bind, read_output_dict.
  destruct (dict_get _ _); reflexivity.
Qed.

(** C8. The duplicate check returns the fingerprint together with [true] and
    the stored reward exactly when the fingerprint is a key of the mapping,
    and with [false] and [0.0] otherwise; it leaves the world as it was. *)
Theorem check_duplicate_triple (self : DAGPointMutator)
    (program : CompiledProgram) (w : World) :
  let fp := _compute_hash_output self program in
  (is_key (output_dict w) fp ->
   exists r, stored (output_dict w) fp r /\
             _check_duplicate self program w = (Ok (fp, true, r), w)) /\
  (~ is_key (output_dict w) fp ->
   _check_duplicate self program w = (Ok (fp, false, 0), w)).
Proof.
  intros fp. rewrite _check_duplicate_eq. fold fp. split.
  - intros Hk. apply dict_get_is_key in Hk as [r Hr]. exists r.
    rewrite Hr. split; [now apply dict_get_stored | reflexivity].
  - intros Hk. destruct (dict_get (output_dict w) fp) as [r | ] eqn:Hr.
    + exfalso. apply Hk, dict_get_is_key. eauto.
    + reflexivity.
Qed.

End Fingerprint.

(** ** The population *)

Section Population.

Context {E : Collaborators}.

Lemma evict_skipn (size : Z) (pop : list Individual) :
  (0 <= size)%Z ->
  evict size pop = skipn (length pop - Z.to_nat size) pop.
Proof.
  intros Hs. induction pop as [ | x rest IH]; [reflexivity | ].
  cbn [evict]. unfold len. destruct (size <? _)%Z eqn:Hlt.
  - apply Z.ltb_lt in Hlt. rewrite IH. cbn [length] in *.
    replace (S (length rest) - Z.to_nat size)
      with (S (length rest - Z.to_nat size)) by lia.
    reflexivity.
  - apply Z.ltb_ge in Hlt. cbn [length] in *.
    replace (S (length rest) - Z.to_nat size) with 0 by lia.
    reflexivity.
Qed.

Lemma feedback_population (self : CGSRegularizedEvolution) (dna : DNA)
    (reward : float) (w : World) :
  (0 <= population_size self)%Z ->
  fst (feedback self dna reward w) = Ok tt /\
  population (snd (feedback self dna reward w)) =
  evict (population_size self)
        (population w ++ [individual_of (dna, reward)]).
Proof.
  intros Hs. unfold feedback, bind.
  destruct (update_output_dict_dict dna reward w) as (Hok & _ & Hpop & _).
  destruct (update_output_dict dna reward w) as [r w1]. simpl in Hok, Hpop.
  subst r. unfold read_population.
  apply Z.ltb_ge in Hs. rewrite Hs. simpl. rewrite Hpop. auto.
Qed.

Lemma suffix_step (s : nat) (p0 rest : list Individual) :
  let p1 := skipn (length p0 - s) p0 in
  skipn (length (p1 ++ rest) - s) (p1 ++ rest) =
  skipn (length (p0 ++ rest) - s) (p0 ++ rest).
Proof.
  intros p1. subst p1. rewrite !length_app, length_skipn.
  destruct (Nat.le_gt_cases (length p0) s) as [Hle | Hgt].
  - replace (length p0 - s) with 0 by lia. rewrite Nat.sub_0_r. reflexivity.
  - replace (length p0 - (length p0 - s) + length rest - s)
      with (length rest) by lia.
    replace (length p0 + length rest - s)
      with (length rest + (length p0 - s)) by lia.
    rewrite <- skipn_skipn. f_equal.
    rewrite skipn_app.
    replace (length p0 - s - length p0) with 0 by lia. reflexivity.
Qed.

Lemma feedback_step (self : CGSRegularizedEvolution) (w : World) :
  (0 <= population_size self)%Z ->
  (len (population w) <= population_size self)%Z ->
  forall dna reward,
    population (snd (feedback self dna reward w)) =
    if (len (population w) <? population_size self)%Z
    then population w ++ [individual_of (dna, reward)]
    else skipn 1 (population w ++ [individual_of (dna, reward)]).
Proof.
  intros Hs Hlen dna reward.
  rewrite (proj2 (feedback_population self dna reward w Hs)).
  rewrite evict_skipn by exact Hs. rewrite length_app. cbn [length].
  unfold len in *. destruct (_ <? _)%Z eqn:Hlt.
  - apply Z.ltb_lt in Hlt.
    replace (length (population w) + 1 - Z.to_nat (population_size self))
      with 0 by lia.
    reflexivity.
  - apply Z.ltb_ge in Hlt.
    replace (length (population w) + 1 - Z.to_nat (population_size self))
      with 1 by lia.
    reflexivity.
Qed.

Lemma feedbacks_suffix (self : CGSRegularizedEvolution)
    (calls : list (DNA * float)) :
  (0 <= population_size self)%Z ->
  forall w : World,
    (len (population w) <= population_size self)%Z ->
    let inserted := population w ++ map individual_of calls in
    let w' := snd (feedbacks self calls w) in
    fst (feedbacks self calls w) = Ok tt /\
    (len (population w') <= population_size self)%Z /\
    population w' =
      skipn (length inserted - Z.to_nat (population_size self)) inserted.
Proof.
  intros Hs. induction calls as [ | [dna reward] rest IH];
    intros w Hlen inserted w'; subst inserted w'.
  - simpl. rewrite app_nil_r. repeat split; auto.
    unfold len in Hlen.
    replace (length (population w) - Z.to_nat (population_size self))
      with 0 by lia.
    reflexivity.
  - cbn [feedbacks fst snd map]. unfold bind.
    destruct (feedback_population self dna reward w Hs) as [Hok Hpop].
    destruct (feedback self dna reward w) as [r w1]. simpl in Hok, Hpop.
    subst r. rewrite evict_skipn in Hpop by exact Hs.
    assert (Hlen1 : (len (population w1) <= population_size self)%Z).
    { rewrite Hpop. unfold len. rewrite length_skipn. lia. }
    destruct (IH w1 Hlen1) as (H1 & H2 & H3).
    repeat split; auto.
    rewrite H3, Hpop.
    rewrite (suffix_step (Z.to_nat (population_size self))
               (population w ++ [individual_of (dna, reward)])
               (map individual_of rest)).
    now rewrite <- app_assoc.
Qed.

(** C3. After any sequence of [feedback] calls the population holds at most
    [population_size] individuals, and it is the newest end of everything
    that was inserted, in insertion order; a single [feedback] appends the
    new individual and, when the population was full, drops exactly the
    oldest one, keeping the order of the others. *)
Theorem population_bounded_fifo (self : CGSRegularizedEvolution)
    (calls : list (DNA * float)) (w : World) :
  (0 <= population_size self)%Z ->
  (len (population w) <= population_size self)%Z ->
  let inserted := population w ++ map individual_of calls in
  let w' := snd (feedbacks self calls w) in
  fst (feedbacks self calls w) = Ok tt /\
  (len (population w') <= population_size self)%Z /\
  population w' =
    skipn (length inserted - Z.to_nat (population_size self)) inserted /\
  (forall dna reward,
     population (snd (feedback self dna reward w)) =
     if (len (population w) <? population_size self)%Z
     then population w ++ [individual_of (dna, reward)]
     else skipn 1 (population w ++ [individual_of (dna, reward)])).
Proof.
  intros Hs Hlen inserted w'.
  destruct (feedbacks_suffix self calls Hs w Hlen) as (H1 & H2 & H3).
  repeat split; auto. apply feedback_step; assumption.
Qed.

End Population.

(** ** What the methods leave untouched *)

Section Frame.

Context {E : Collaborators}.

Lemma set_controller_state_same (w : World) :
  set_controller_state (population w) (own_random w) w = w.
Proof. destruct w; reflexivity. Qed.

Lemma mutator_frame_ret {A} (a : A) : mutator_frame (ret a).
Proof. intros w p o. split; reflexivity. Qed.

Lemma mutator_frame_lift {A} (r : Result A) : mutator_frame (lift r).
Proof. intros w p o. split; reflexivity. Qed.

Lemma mutator_frame_out_of_fuel {A} : mutator_frame (@out_of_fuel _ A).
Proof. intros w p o. split; reflexivity. Qed.

Lemma mutator_frame_bind {A B} (m : M A) (k : A -> M B) :
  mutator_frame m -> (forall a, mutator_frame (k a)) ->
  mutator_frame (bind m k).
Proof.
  intros Hm Hk w p o. unfold bind.
  destruct (Hm w p o) as [E1 E2]. rewrite E1.
  destruct (m w) as [[a | e | ] w1]; simpl in *; auto.
  destruct (Hk a w1 p o) as [F1 F2]. split; [exact F1 | ].
  now rewrite F2.
Qed.

Lemma mutator_frame_logging_info (r : LogRecord) :
  mutator_frame (logging_info r).
Proof. intros w p o. split; reflexivity. Qed.

Lemma mutator_frame_with_py_random {A} (f : Random.Rng -> A * Random.Rng) :
  mutator_frame (with_py_random f).
Proof.
  intros w p o. unfold with_py_random. simpl.
  destruct (f (py_random w)). split; reflexivity.
Qed.

Lemma mutator_frame_read_output_dict : mutator_frame read_output_dict.
Proof. intros w p o. split; reflexivity. Qed.

Ltac frame_step :=
  first
    [ apply mutator_frame_bind; [ | intros ]
    | apply mutator_frame_ret
    | apply mutator_frame_lift
    | apply mutator_frame_out_of_fuel
    | apply mutator_frame_logging_info
    | apply mutator_frame_with_py_random
    | apply mutator_frame_read_output_dict
    | match goal with
      | |- mutator_frame (match ?x with _ => _ end) => destruct x
      end ].

Lemma mutator_frame__check_duplicate self program :
  mutator_frame (_check_duplicate self program).
Proof. unfold _check_duplicate. repeat frame_step. Qed.

Lemma mutator_frame__sample_node_idx_to_mutate self loss_program :
  mutator_frame (_sample_node_idx_to_mutate self loss_program).
Proof. unfold _sample_node_idx_to_mutate. repeat frame_step. Qed.

Lemma mutator_frame__alter_continuous program_lst loss_program :
  mutator_frame (_alter_continuous program_lst loss_program).
Proof. unfold _alter_continuous. repeat frame_step. Qed.

Lemma mutator_frame__alter_node_idx self program_lst loss_program :
  mutator_frame (_alter_node_idx self program_lst loss_program).
Proof.
  unfold _alter_node_idx.
  apply mutator_frame_bind;
    [apply mutator_frame__sample_node_idx_to_mutate | intros [[? ?] ?]].
  destruct (isinstance _ _);
    [apply mutator_frame__alter_continuous | repeat frame_step].
Qed.

Lemma mutator_frame_mutate_loop fuel self old_spec program_spec loss_program :
  mutator_frame (mutate_loop fuel self old_spec program_spec loss_program).
Proof.
  induction fuel as [ | fuel IH]; cbn [mutate_loop];
    [apply mutator_frame_out_of_fuel | ].
  apply mutator_frame_bind; [apply mutator_frame__alter_node_idx | intros sp].
  destruct (build_program _ _ _ _) as [lp valid].
  destruct valid; cbn [negb]; [ | exact IH].
  apply mutator_frame_bind;
    [apply mutator_frame__check_duplicate | intros [[? ?] ?]].
  repeat frame_step.
Qed.

Lemma mutator_frame_mutate fuel self dna :
  mutator_frame (mutate fuel self dna).
Proof.
  unfold mutate.
  apply mutator_frame_bind; [apply mutator_frame_with_py_random | intros coin].
  destruct (PrimFloat.ltb _ _).
  - apply mutator_frame_bind; [apply mutator_frame_logging_info | intros _].
    destruct (build_program _ _ _ _). apply mutator_frame_mutate_loop.
  - repeat frame_step.
Qed.

Lemma keeps_output_dict_bind {A B} (m : M A) (k : A -> M B) :
  keeps_output_dict m -> (forall a, keeps_output_dict (k a)) ->
  keeps_output_dict (bind m k).
Proof.
  intros Hm Hk w. unfold bind. specialize (Hm w).
  destruct (m w) as [[a | e | ] w1]; simpl in *; auto.
  now rewrite Hk.
Qed.

Lemma keeps_output_dict_frame {A} (m : M A) :
  mutator_frame m -> keeps_output_dict m.
Proof. intros H w. exact (proj2 (H w [] None)). Qed.

Lemma keeps_output_dict_with_self_random {A}
    (f : Random.Rng -> A * Random.Rng) :
  keeps_output_dict (with_self_random f).
Proof.
  intros w. unfold with_self_random, with_py_random.
  destruct (own_random w) as [r | ].
  - destruct (f r). reflexivity.
  - destruct (f (py_random w)). reflexivity.
Qed.

Lemma keeps_output_dict_py_assert (b : bool) : keeps_output_dict (py_assert b).
Proof. intros w. destruct b; reflexivity. Qed.

Lemma keeps_output_dict_select_parent fuel self :
  keeps_output_dict (select_parent fuel self).
Proof.
  unfold select_parent.
  apply keeps_output_dict_bind; [intros w; reflexivity | intros pop].
  apply keeps_output_dict_bind; [apply keeps_output_dict_py_assert | intros _].
  apply keeps_output_dict_bind;
    [apply keeps_output_dict_with_self_random | intros r].
  apply keeps_output_dict_bind; [intros w; reflexivity | intros t].
  apply keeps_output_dict_bind; [intros w; reflexivity | intros sel].
  intros w; reflexivity.
Qed.

Lemma keeps_output_dict_propose fuel self :
  keeps_output_dict (propose fuel self).
Proof.
  unfold propose.
  apply keeps_output_dict_bind; [intros w; reflexivity | intros pop].
  destruct (_ <? _)%Z.
  - apply keeps_output_dict_frame. repeat frame_step.
  - apply keeps_output_dict_bind;
      [apply keeps_output_dict_select_parent | intros [t sel]].
    apply keeps_output_dict_frame, mutator_frame_mutate.
Qed.

Lemma feedback_output_dict self dna reward w :
  output_dict (snd (feedback self dna reward w)) =
  dict_set (output_dict w) (to_json_value_last dna) reward.
Proof.
  unfold feedback, bind.
  destruct (update_output_dict_dict dna reward w) as (Hok & Hd & _).
  destruct (update_output_dict dna reward w) as [r w1]. simpl in Hok, Hd.
  subst r. unfold read_population.
  destruct (_ <? _)%Z; simpl; exact Hd.
Qed.

End Frame.

(** ** The candidates of a structural mutation *)

Section Candidates.

Context {E : Collaborators}.

(** What makes [(op_idx, input_idxs)] a member of [valid_lst] for operator
    class [op_cls]. *)
Let accepted (is_leaf : bool) (all_inputs : list Node) (op_to_replace : Node)
    (op_cls : OpCls) (input_idxs : list nat) : Prop :=
  exists input_ops,
    gather all_inputs input_idxs = Ok input_ops /\
    precheck_valid_input op_cls input_ops = true /\
    (is_leaf = false ->
     new_op_odtype op_cls input_idxs (map odtype input_ops) =
     odtype op_to_replace).

Lemma DType_eqb_eq (a b : DType) : DType_eqb a b = true <-> a = b.
Proof. unfold DType_eqb. destruct (DType_eq_dec a b); split; congruence. Qed.

Lemma OpCls_eqb_eq (a b : OpCls) : OpCls_eqb a b = true <-> a = b.
Proof. unfold OpCls_eqb. destruct (OpCls_eq_dec a b); split; congruence. Qed.

Lemma try_candidate_In is_leaf all_inputs op_to_replace op_cls op_idx
    input_idxs l :
  try_candidate is_leaf all_inputs op_to_replace op_cls op_idx input_idxs
    = Ok l ->
  forall p, In p l <->
    p = (op_idx, input_idxs) /\
    accepted is_leaf all_inputs op_to_replace op_cls input_idxs.
Proof.
  unfold try_candidate, accepted.
  destruct (gather all_inputs input_idxs) as [input_ops | e | ];
    try discriminate.
  destruct (precheck_valid_input op_cls input_ops) eqn:Hpre.
  - destruct is_leaf.
    + intros [= <-] p. simpl. split.
      * intros [<- | []]. split; [reflexivity | ].
        exists input_ops. repeat split; auto. discriminate.
      * intros [-> _]. now left.
    + destruct (DType_eqb _ _) eqn:Hd; intros [= <-] p; simpl; split.
      * intros [<- | []]. split; [reflexivity | ].
        exists input_ops. repeat split; auto. intros _.
        now apply DType_eqb_eq.
      * intros [-> _]. now left.
      * intros [].
      * intros [_ (ops & [= <-] & _ & Hty)].
        apply DType_eqb_eq in Hty; [congruence | reflexivity].
  - intros [= <-] p. simpl. split; [intros [] | ].
    intros [_ (ops & [= <-] & Hp & _)]. congruence.
Qed.

Lemma try_inputs_In is_leaf all_inputs op_to_replace op_cls op_idx
    candidates :
  forall l,
  try_inputs is_leaf all_inputs op_to_replace op_cls op_idx candidates
    = Ok l ->
  forall p, In p l <->
    exists input_idxs,
      In input_idxs candidates /\ p = (op_idx, input_idxs) /\
      accepted is_leaf all_inputs op_to_replace op_cls input_idxs.
Proof.
  induction candidates as [ | c rest IH]; cbn [try_inputs]; intros l.
  - intros [= <-] p. simpl. split; [intros [] | intros (? & [] & _)].
  - destruct (try_candidate _ _ _ _ _ c) as [here | e | ] eqn:Hc;
      try discriminate.
    destruct (try_inputs _ _ _ _ _ rest) as [more | e | ] eqn:Hr;
      try discriminate.
    intros [= <-] p. rewrite in_app_iff.
    rewrite (try_candidate_In _ _ _ _ _ _ _ Hc p), (IH more eq_refl p).
    split.
    + intros [[-> Ha] | (i & Hi & -> & Ha)];
        [exists c | exists i]; simpl; auto.
    + intros (i & [<- | Hi] & -> & Ha); [left | right; exists i]; auto.
Qed.

Lemma try_ops_In self is_leaf all_inputs op_to_replace possible_ops :
  forall l count,
  try_ops self is_leaf all_inputs op_to_replace possible_ops
    = Ok (l, count) ->
  forall p, In p l <->
    exists op_cls input_idxs,
      In op_cls possible_ops /\
      In input_idxs (get_possible_input_idxs op_cls (length all_inputs)) /\
      p = (index OpCls_eqb op_cls (operators self), input_idxs) /\
      accepted is_leaf all_inputs op_to_replace op_cls input_idxs.
Proof.
  induction possible_ops as [ | c rest IH]; cbn [try_ops]; intros l count.
  - intros [= <- _] p. simpl. split; [intros [] | intros (? & ? & [] & _)].
  - destruct (try_inputs _ _ _ c _ _) as [here | e | ] eqn:Hc;
      try discriminate.
    destruct (try_ops _ _ _ _ rest) as [[more n] | e | ] eqn:Hr;
      try discriminate.
    intros [= <- _] p. rewrite in_app_iff.
    rewrite (try_inputs_In _ _ _ _ _ _ _ Hc p), (IH more n eq_refl p).
    split.
    + intros [(i & Hi & -> & Ha) | (c' & i & Hc' & Hi & -> & Ha)];
        [exists c, i | exists c', i]; simpl; auto.
    + intros (c' & i & [<- | Hc'] & Hi & -> & Ha);
        [left; exists i | right; exists c', i]; auto.
Qed.

Lemma possible_ops_of_In self op_cls :
  In op_cls (possible_ops_of self) <->
  In op_cls (operators self) /\ op_cls <> LossOpNode.
Proof.
  unfold possible_ops_of. rewrite nodup_In, filter_In.
  rewrite negb_true_iff. split; intros [H1 H2]; split; auto.
  - intros Heq. apply OpCls_eqb_eq in Heq. congruence.
  - destruct (OpCls_eqb op_cls LossOpNode) eqn:Heq; [ | reflexivity].
    apply OpCls_eqb_eq in Heq. contradiction.
Qed.

(** For a target at index [k >= 1], [all_inputs] is the first [k - 1] nodes. *)
Lemma all_inputs_of_prefix (loss_program : CompiledProgram) (k : Z) :
  (1 <= k)%Z ->
  all_inputs_of loss_program k =
  firstn (Z.to_nat k - 1) (ops_lst loss_program).
Proof.
  intros Hk. unfold all_inputs_of, slice_to, len.
  replace (k - 1 <? 0)%Z with false by (symmetry; apply Z.ltb_ge; lia).
  destruct (Z.le_gt_cases (k - 1) (Z.of_nat (length (ops_lst loss_program))))
    as [Hle | Hgt].
  - rewrite Z.min_l by exact Hle. f_equal. lia.
  - rewrite Z.min_r by lia. rewrite Nat2Z.id.
    rewrite !firstn_all2; auto; lia.
Qed.

(** C7. In a structural mutation, a pair (operator index, input indices) is
    in [valid_lst] exactly when it is an enumerated combination of a
    non-loss operator of the catalogue that passes the operator's input
    precheck and, if the target is not a leaf, whose inferred output data
    type equals the output data type of the node it replaces; for a leaf
    target the precheck is the only condition. *)
Theorem valid_lst_type_preserving (self : DAGPointMutator)
    (loss_program : CompiledProgram) (node_idx : Z) (op_to_replace : Node)
    (valid_lst : list (nat * list nat)) (count : nat) :
  valid_lst_of self loss_program node_idx op_to_replace
    = Ok (valid_lst, count) ->
  forall op_idx input_idxs,
    In (op_idx, input_idxs) valid_lst <->
    exists op_cls input_ops,
      In op_cls (operators self) /\ op_cls <> LossOpNode /\
      op_idx = index OpCls_eqb op_cls (operators self) /\
      In input_idxs
         (get_possible_input_idxs op_cls
            (length (all_inputs_of loss_program node_idx))) /\
      gather (all_inputs_of loss_program node_idx) input_idxs
        = Ok input_ops /\
      precheck_valid_input op_cls input_ops = true /\
      (mem_int node_idx (find_leaf_nodes loss_program) = false ->
       new_op_odtype op_cls input_idxs (map odtype input_ops) =
       odtype op_to_replace).
Proof.
  unfold valid_lst_of. intros H op_idx input_idxs.
  rewrite (try_ops_In _ _ _ _ _ _ _ H (op_idx, input_idxs)).
  unfold accepted. split.
  - intros (c & i & Hc & Hi & [= -> ->] & ops & Hg & Hp & Hty).
    apply possible_ops_of_In in Hc as [Hc1 Hc2].
    exists c, ops. repeat split; auto.
  - intros (c & ops & Hc1 & Hc2 & -> & Hi & Hg & Hp & Hty).
    exists c, input_idxs. repeat split; auto.
    + apply possible_ops_of_In. auto.
    + exists ops. auto.
Qed.

End Candidates.

(** ** Sampling without replacement *)

Module SampleFacts.

Import Random.

Lemma randbelow_lt (n : nat) (r : Rng) : 0 < n -> fst (randbelow n r) < n.
Proof.
  intros Hn. unfold randbelow. simpl.
  assert (H : (tape r (cursor r) mod N.of_nat n < N.of_nat n)%N)
    by (apply N.mod_lt; lia).
  lia.
Qed.









(** *** The pool loop as a function of its draws *)














(** *** The set loop *)











(** *** The positions of a sample *)








Lemma gather_in_range {A} (l : list A) (ps : list nat) :
  Forall (fun p => p < length l) ps ->
  exists xs, gather l ps = Ok xs /\
             Forall2 (fun p x => nth_error l p = Some x) ps xs.
Proof.
  induction 1 as [ | p ps Hp _ (xs & Hxs & Hall)]; simpl.
  - exists []. split; [reflexivity | constructor].
  - destruct (nth_error l p) as [x | ] eqn:Hx.
    + rewrite Hxs. exists (x :: xs). split; [reflexivity | ].
      constructor; assumption.
    + apply nth_error_None in Hx. lia.
Qed.

End SampleFacts.

(** ** Proposals *)

Section Tournament.

Context {E : Collaborators}.
Local Open Scope float_scope.




Lemma with_self_random_eq {A} (f : Random.Rng -> A * Random.Rng) (w : World) :
  with_self_random f w =
  (Ok (fst (f (self_random w))),
   advance_self_random (snd (f (self_random w))) w).
Proof.
  unfold with_self_random, with_py_random, self_random, advance_self_random.
  destruct (own_random w) as [r | ] eqn:Ho.
  - destruct (f r). reflexivity.
  - destruct (f (py_random w)). unfold set_ambient. rewrite Ho. reflexivity.
Qed.

(** [select_parent] on a full population, in terms of the positions that the
    sampler draws. *)
Lemma select_parent_full (fuel : nat) (self : CGSRegularizedEvolution)
    (w : World) :
  len (population w) = population_size self ->
  (0 <= tournament_size self <= population_size self)%Z ->
  let drawn :=
    Random.sample_positions fuel (length (population w))
      (Z.to_nat (tournament_size self)) (self_random w) in
  select_parent fuel self w =
  (match fst drawn with
   | Ok ps =>
       match gather (population w) ps with
       | Ok tournament =>
           match max_by_reward tournament with
           | Ok selected => Ok (tournament, selected)
           | Raise e => Raise e
           | OutOfFuel => OutOfFuel
           end
       | Raise e => Raise e
       | OutOfFuel => OutOfFuel
       end
   | Raise e => Raise e
   | OutOfFuel => OutOfFuel
   end,
   advance_self_random (snd drawn) w).
Proof.
  intros Hfull [Ht0 Ht] drawn.
  unfold select_parent, bind, read_population.
  rewrite Hfull, Z.eqb_refl. cbn [py_assert ret].
  rewrite with_self_random_eq. unfold Random.sample.
  replace ((tournament_size self <? 0)%Z) with false
    by (symmetry; apply Z.ltb_ge; lia).
  replace ((len (population w) <? tournament_size self)%Z) with false
    by (symmetry; apply Z.ltb_ge; lia).
  cbn [orb]. fold drawn. destruct drawn as [[ps | e | ] r']; cbn [fst snd lift];
    try reflexivity.
  destruct (gather (population w) ps) as [t | e | ]; try reflexivity.
  destruct (max_by_reward t); reflexivity.
Qed.


End Tournament.

(** ** Point mutation of the loss node *)

Section LossTarget.

Context {E : Collaborators}.

Lemma choice_nonempty {A} (l : list A) (r : Random.Rng) :
  l <> [] ->
  exists x,
    Random.choice l r = (Ok x, snd (Random.randbelow (length l) r)) /\
    In x l.
Proof.
  intros Hne. unfold Random.choice.
  destruct l as [ | a l']; [congruence | ].
  assert (Hlt := SampleFacts.randbelow_lt (length (a :: l')) r
                   ltac:(simpl; lia)).
  destruct (Random.randbelow (length (a :: l')) r) as [i r'].
  cbn [fst snd] in *.
  destruct (nth_error (a :: l') i) as [x | ] eqn:Hx.
  - exists x. split; [reflexivity | ]. eapply nth_error_In, Hx.
  - apply nth_error_None in Hx. lia.
Qed.

(** C2 (as the code has it). When the sampled target is the loss node,
    [_alter_node_idx] returns a specification with the program list it was
    given and a loss weight chosen among the allowed weights of the last
    node, without enumerating candidates; the iteration of [mutate] then
    goes on as for any other target: the specification is built and checked
    for validity, an invalid one restarts the loop, and a valid one goes
    through the duplicate check, whose fingerprint, flag and cached reward
    are encoded into the returned genome. *)
Theorem loss_target_changes_only_loss_weight (self : DAGPointMutator)
    (old_spec : DNASpec) (program_spec : ProgramSpec)
    (loss_program : CompiledProgram) (w w1 : World)
    (node_idx n_idx : Z) (op last_op : Node) :
  _sample_node_idx_to_mutate self loss_program w
    = (Ok (node_idx, n_idx, op), w1) ->
  isinstance op LossOpNode = true ->
  getitem (ops_lst loss_program) (-1) = Ok last_op ->
  loss_weights last_op <> [] ->
  exists weight,
    let new_spec :=
      {| program_lst := program_lst program_spec;
         loss_weight := weight;
         duplicate := duplicate ProgramSpec_defaults;
         reward := reward ProgramSpec_defaults;
         hash_output := hash_output ProgramSpec_defaults |} in
    let w2 :=
      set_ambient
        (snd (Random.randbelow (length (loss_weights last_op)) (py_random w1)))
        (logged w1) w1 in
    In weight (loss_weights last_op) /\
    _alter_node_idx self (program_lst program_spec) loss_program w
      = (Ok new_spec, w2) /\
    forall fuel,
      mutate_loop (S fuel) self old_spec program_spec loss_program w =
      let built :=
        build_program (input_nodes self) new_spec (operators self) 0 in
      let fp := _compute_hash_output self (fst built) in
      if snd built then
        (Ok (use_spec
               (template_encode
                  {| program_lst := program_lst program_spec;
                     loss_weight := weight;
                     duplicate := dict_contains (output_dict w2) fp;
                     reward :=
                       match dict_get (output_dict w2) fp with
                       | Some r => r
                       | None => 0%float
                       end;
                     hash_output := fp |})
               old_spec),
         set_ambient (py_random w2)
           (logged w2 ++
              [LogDuplicateCheck; LogEncoding;
               LogLossWeights (loss_weight program_spec) weight; LogUseSpec])
           w2)
      else mutate_loop fuel self old_spec program_spec loss_program w2.
Proof.
  intros Hs Hi Hlast Hne.
  destruct (choice_nonempty (loss_weights last_op) (py_random w1) Hne)
    as (weight & Hc & Hin).
  exists weight. cbv zeta.
  assert (Halter :
    _alter_node_idx self (program_lst program_spec) loss_program w =
    (Ok {| program_lst := program_lst program_spec;
           loss_weight := weight;
           duplicate := duplicate ProgramSpec_defaults;
           reward := reward ProgramSpec_defaults;
           hash_output := hash_output ProgramSpec_defaults |},
     set_ambient
       (snd (Random.randbelow (length (loss_weights last_op)) (py_random w1)))
       (logged w1) w1)).
  { unfold _alter_node_idx, bind at 1. rewrite Hs, Hi.
    unfold _alter_continuous, bind, lift, with_py_random.
    rewrite Hlast, Hc. reflexivity. }
  repeat split; [exact Hin | exact Halter | ].
  intros fuel. cbn [mutate_loop]. unfold bind at 1. rewrite Halter.
  destruct (build_program _ _ _ _) as [lp valid]. cbn [fst snd].
  destruct valid; cbn [negb]; [ | reflexivity].
  unfold bind at 1. rewrite _check_duplicate_eq.
  unfold dict_contains.
  destruct (dict_get _ _); unfold bind, logging_info, ret, set_ambient;
    cbn [py_random logged output_dict population own_random];
    rewrite <- !app_assoc; reflexivity.
Qed.

End LossTarget.

(** ** The definitions at work on the small search space *)

Section OnToy.

Import Toy.
#[local] Existing Instance collaborators.

(** C1 (the code on the chain input -> A -> B -> Loss, target B at index 2).
    The nodes before the target are the input node and A, at indices 0 and
    1; [all_inputs] is [ops_lst[:2 - 1]], the input node alone, so the only
    candidate for B takes input 0 and A is never offered as an input. *)
Theorem all_inputs_stop_before_predecessor :
  ops_lst chain = [(9, 1); (1, 1); (2, 2); (0, 0)] /\
  firstn 2 (ops_lst chain) = [(9, 1); (1, 1)] /\
  all_inputs_of chain 2 = [(9, 1)] /\
  valid_lst_of the_mutator chain 2 (2, 2) = Ok ([(2, [0])], 4).
Proof. repeat split; reflexivity. Qed.

(** C2, refuted as stated: the module-level draws 0, 2, 1 make [mutate]
    take the point-mutation branch and sample the loss node (index 3) as
    target; the call does not return before the duplicate check: the check is
    logged, and its fingerprint 3, its flag and the reward 7 cached under
    that fingerprint are in the returned genome. *)
Lemma loss_target_is_still_checked :
  let w := world_of [0; 2; 1]%N [(3, 7)]%float [] None in
  fst (_sample_node_idx_to_mutate the_mutator chain
         (world_of [2; 1]%N [(3, 7)]%float [] None))
    = Ok (3%Z, 2%Z, (0, 0)) /\
  isinstance (Collaborators := collaborators) (0, 0) LossOpNode = true /\
  fst (mutate 1 the_mutator chain_dna w)
    = Ok ({| program_lst := [(1, [0]); (2, [1]); (0, [2])];
             loss_weight := 1.5%float;
             duplicate := true;
             reward := 7%float;
             hash_output := 3%float |}, 0) /\
  logged (snd (mutate 1 the_mutator chain_dna w))
    = [LogDecoding; LogMutatingOp (0, 0); LogDuplicateCheck; LogEncoding;
       LogLossWeights 1%float 1.5%float; LogUseSpec].
Proof. repeat split; reflexivity. Qed.

(** C5, refuted as stated: two runs of the same controller with the same
    seed 7 and the same collaborators, started with the module-level
    generator in two different states, propose different third genomes. *)
Lemma same_seed_different_proposals :
  let evaluate := fun _ : DNA => 1%float in
  let mutated :=
    ({| program_lst := [(1, [0]); (2, [0]); (0, [2])];
        loss_weight := 1%float;
        duplicate := false;
        reward := 0%float;
        hash_output := 3%float |}, 0) in
  seed the_controller = Some 7%Z /\
  fst (run 3 the_controller evaluate 3 (rng_of [0; 1; 3]%N))
    = Ok [chain_dna; chain_dna; mutated] /\
  fst (run 3 the_controller evaluate 3 (rng_of [9007199254740991; 1; 3]%N))
    = Ok [chain_dna; chain_dna; chain_dna] /\
  program_lst (fst mutated) <> program_lst (fst chain_dna).
Proof. repeat split; try reflexivity. discriminate. Qed.

(** C6 at the program input -> Nan -> Loss, whose summed output is NaN. *)
Lemma fingerprint_finite_float32_witness :
  uniform_range (rand_float the_mutator) = true /\
  (let fp := _compute_hash_output the_mutator nan_program in
   Np.isnan fp = false /\ Np.isinf fp = false /\
   (Np.finfo_float32_min <=? fp)%float = true /\
   (fp <=? Np.finfo_float32_max)%float = true /\
   (numerically_invalid the_mutator nan_program = true ->
    fp = Np.clip (rand_float the_mutator)
           Np.finfo_float32_min Np.finfo_float32_max)).
Proof.
  split; [reflexivity | ].
  exact (fingerprint_finite_float32 the_mutator nan_program eq_refl).
Defined.

(** C3 at three calls of [feedback] on a controller of population size 2. *)
Lemma population_bounded_fifo_witness :
  let calls : list (DNA * float) :=
    [(chain_dna, 1%float); (chain_dna, 2%float); (chain_dna, 3%float)] in
  let w := world_of [] [] [] None in
  let inserted := population w ++ map individual_of calls in
  let w' := snd (feedbacks the_controller calls w) in
  (0 <= population_size the_controller)%Z /\
  (len (population w) <= population_size the_controller)%Z /\
  fst (feedbacks the_controller calls w) = Ok tt /\
  (len (population w') <= population_size the_controller)%Z /\
  population w' =
    skipn (length inserted - Z.to_nat (population_size the_controller))
          inserted /\
  (forall dna reward,
     population (snd (feedback the_controller dna reward w)) =
     if (len (population w) <? population_size the_controller)%Z
     then population w ++ [individual_of (dna, reward)]
     else skipn 1 (population w ++ [individual_of (dna, reward)])).
Proof.
  intros calls w inserted w'.
  assert (H0 : (0 <= population_size the_controller)%Z) by (simpl; lia).
  assert (H1 : (len (population w) <= population_size the_controller)%Z)
    by (unfold len; simpl; lia).
  split; [exact H0 | ]. split; [exact H1 | ].
  exact (population_bounded_fifo the_controller calls w H0 H1).
Defined.

(** C7 at the non-leaf target B of the chain. *)
Lemma valid_lst_type_preserving_witness :
  valid_lst_of the_mutator chain 2 (2, 2) = Ok ([(2, [0])], 4) /\
  (In (2, [0]) [(2, [0])] <->
   exists (op_cls : OpCls) (input_ops : list Node),
     In op_cls (operators the_mutator) /\ op_cls <> LossOpNode /\
     2 = index OpCls_eqb op_cls (operators the_mutator) /\
     In [0]
        (get_possible_input_idxs op_cls (length (all_inputs_of chain 2))) /\
     gather (all_inputs_of chain 2) [0] = Ok input_ops /\
     precheck_valid_input op_cls input_ops = true /\
     (mem_int 2 (find_leaf_nodes chain) = false ->
      new_op_odtype op_cls [0] (map odtype input_ops) = odtype (2, 2))).
Proof.
  split; [reflexivity | ].
  exact (valid_lst_type_preserving the_mutator chain 2 (2, 2) [(2, [0])] 4
           eq_refl 2 [0]).
Defined.

(** C2 (as the code has it) at the chain, with the loss node sampled. *)
Lemma loss_target_changes_only_loss_weight_witness :
  let self := the_mutator in
  let w := world_of [2; 1]%N [(3, 7)]%float [] None in
  let w1 := snd (_sample_node_idx_to_mutate self chain w) in
  let last_op : Node := (0, 0) in
  _sample_node_idx_to_mutate self chain w = (Ok (3%Z, 2%Z, (0, 0)), w1) /\
  isinstance (Collaborators := collaborators) (0, 0) LossOpNode = true /\
  getitem (ops_lst chain) (-1) = Ok last_op /\
  loss_weights last_op <> [] /\
  exists weight,
    let new_spec :=
      {| program_lst := program_lst fresh_spec;
         loss_weight := weight;
         duplicate := duplicate ProgramSpec_defaults;
         reward := reward ProgramSpec_defaults;
         hash_output := hash_output ProgramSpec_defaults |} in
    let w2 :=
      set_ambient
        (snd (Random.randbelow (length (loss_weights last_op)) (py_random w1)))
        (logged w1) w1 in
    In weight (loss_weights last_op) /\
    _alter_node_idx self (program_lst fresh_spec) chain w
      = (Ok new_spec, w2) /\
    forall fuel,
      mutate_loop (S fuel) self 0 fresh_spec chain w =
      let built :=
        build_program (input_nodes self) new_spec (operators self) 0 in
      let fp := _compute_hash_output self (fst built) in
      if snd built then
        (Ok (use_spec
               (template_encode
                  {| program_lst := program_lst fresh_spec;
                     loss_weight := weight;
                     duplicate := dict_contains (output_dict w2) fp;
                     reward :=
                       match dict_get (output_dict w2) fp with
                       | Some r => r
                       | None => 0%float
                       end;
                     hash_output := fp |})
               0),
         set_ambient (py_random w2)
           (logged w2 ++
              [LogDuplicateCheck; LogEncoding;
               LogLossWeights (loss_weight fresh_spec) weight; LogUseSpec])
           w2)
      else mutate_loop fuel self 0 fresh_spec chain w2.
Proof.
  intros self w w1 last_op.
  assert (Hne : loss_weights last_op <> []) by discriminate.
  split; [reflexivity | ]. split; [reflexivity | ].
  split; [reflexivity | ]. split; [exact Hne | ].
  exact (loss_target_changes_only_loss_weight self 0 fresh_spec chain w w1
           3 2 (0, 0) last_op eq_refl eq_refl eq_refl Hne).
Defined.

End OnToy.

(** * Further properties of the code *)

(** ** More on the order of floats *)

Module FloatOrderMore.

Import FloatOrder.
Local Open Scope float_scope.

Lemma eqb_sym (x y : float) : (x =? y) = (y =? x).
Proof.
  rewrite !eqb_spec. unfold SFeqb.
  rewrite (SFcompare_swap (Prim2SF y) (Prim2SF x)).
  destruct (SFcompare (Prim2SF y) (Prim2SF x)) as [[ | | ] | ]; reflexivity.
Qed.

Lemma eqb_trans (x y z : float) :
  (x =? y) = true -> (y =? z) = true -> (x =? z) = true.
Proof.
  intros H1 H2. rewrite eqb_sym in H1. exact (eqb_common _ _ _ H1 H2).
Qed.

Lemma SFltb_trans (s t u : spec_float) :
  SFltb s t = true -> SFltb t u = true -> SFltb s u = true.
Proof.
  unfold SFltb.
  destruct s as [a | a | | a m1 e1], t as [b | b | | b m2 e2],
    u as [c | c | | c m3 e3]; simpl; try discriminate; try reflexivity;
    try (destruct a; discriminate || reflexivity);
    try (destruct b; discriminate || reflexivity);
    try (destruct c; discriminate || reflexivity);
    try (destruct a, b; discriminate || reflexivity);
    try (destruct b, c; discriminate || reflexivity);
    try (destruct a, c; discriminate || reflexivity);
    try (destruct a, b, c; discriminate || reflexivity).
  all: destruct a, b, c; try discriminate; try reflexivity.
  all: split_compare; simpl; intros; subst;
    try discriminate; try reflexivity; try lia.
Qed.

Lemma ltb_trans (x y z : float) :
  (x <? y) = true -> (y <? z) = true -> (x <? z) = true.
Proof. rewrite !ltb_spec. apply SFltb_trans. Qed.

Lemma SFleb_ltb_ltb (s t u : spec_float) :
  SFleb s t = true -> SFltb t u = true -> SFltb s u = true.
Proof.
  unfold SFleb, SFltb.
  destruct s as [a | a | | a m1 e1], t as [b | b | | b m2 e2],
    u as [c | c | | c m3 e3]; simpl; try discriminate; try reflexivity;
    try (destruct a; discriminate || reflexivity);
    try (destruct b; discriminate || reflexivity);
    try (destruct c; discriminate || reflexivity);
    try (destruct a, b; discriminate || reflexivity);
    try (destruct b, c; discriminate || reflexivity);
    try (destruct a, c; discriminate || reflexivity);
    try (destruct a, b, c; discriminate || reflexivity).
  all: destruct a, b, c; try discriminate; try reflexivity.
  all: split_compare; simpl; intros; subst;
    try discriminate; try reflexivity; try lia.
Qed.

(** Below-or-equal followed by strictly-below is strictly-below. *)
Lemma leb_ltb_ltb (x y z : float) :
  (x <=? y) = true -> (y <? z) = true -> (x <? z) = true.
Proof. rewrite leb_spec, !ltb_spec. apply SFleb_ltb_ltb. Qed.

Lemma ltb_asym (x y : float) : (x <? y) = true -> (y <? x) = false.
Proof.
  rewrite !ltb_spec. unfold SFltb.
  rewrite (SFcompare_swap (Prim2SF x) (Prim2SF y)).
  destruct (SFcompare (Prim2SF x) (Prim2SF y)) as [[ | | ] | ];
    simpl; congruence.
Qed.

(** A float that compares equal to a finite non-zero float is that float. *)
Lemma SFcompare_Eq_finite (b : bool) (m : positive) (e : Z) (t : spec_float) :
  SFcompare (S754_finite b m e) t = Some Eq -> t = S754_finite b m e.
Proof.
  destruct t as [c | c | | c n f]; simpl; try discriminate;
    try (destruct b; discriminate); try (destruct c; discriminate).
  destruct b, c; try discriminate;
    destruct (Z.compare_spec e f); try discriminate;
    change (Pos.compare_cont Eq m n) with (Pos.compare m n);
    destruct (Pos.compare_spec m n); try discriminate; subst; reflexivity.
Qed.

Lemma leb_not_ltb_eq (x y : float) (b : bool) (m : positive) (e : Z) :
  Prim2SF x = S754_finite b m e ->
  (x <=? y) = true -> (x <? y) = false -> y = x.
Proof.
  rewrite leb_spec, ltb_spec. unfold SFleb, SFltb. intros Hx.
  rewrite Hx.
  destruct (SFcompare (S754_finite b m e) (Prim2SF y)) as [[ | | ] | ] eqn:Hc;
    try discriminate.
  intros _ _. apply SFcompare_Eq_finite in Hc.
  apply Prim2SF_inj. congruence.
Qed.

Lemma leb_not_ltb_eq_r (x y : float) (b : bool) (m : positive) (e : Z) :
  Prim2SF y = S754_finite b m e ->
  (x <=? y) = true -> (x <? y) = false -> x = y.
Proof.
  rewrite leb_spec, ltb_spec. unfold SFleb, SFltb. intros Hy.
  rewrite (SFcompare_swap (Prim2SF y) (Prim2SF x)), Hy.
  destruct (SFcompare (S754_finite b m e) (Prim2SF x)) as [[ | | ] | ] eqn:Hc;
    simpl; try discriminate.
  intros _ _. apply SFcompare_Eq_finite in Hc.
  apply Prim2SF_inj. congruence.
Qed.

End FloatOrderMore.

(** ** The duplicate tracker over a run *)

Section Tracker.

Context {E : Collaborators}.
Local Open Scope float_scope.

Lemma dict_get_set_eq (d : Dict) (k' k v : float) :
  key_eqb k' k = true -> dict_get (dict_set d k' v) k = Some v.
Proof.
  unfold key_eqb. intros Hk. induction d as [ | [k0 v0] d IH]; simpl.
  - unfold key_eqb. now rewrite Hk.
  - unfold key_eqb in *. destruct (k0 =? k') eqn:H0; simpl; unfold key_eqb.
    + now rewrite (FloatOrderMore.eqb_trans _ _ _ H0 Hk).
    + destruct (k0 =? k) eqn:H1; [ | exact IH].
      rewrite FloatOrderMore.eqb_sym in Hk.
      rewrite (FloatOrderMore.eqb_trans _ _ _ H1 Hk) in H0. discriminate.
Qed.

Lemma recorded_app (calls1 calls2 : list (DNA * float)) (d : Dict) :
  recorded (calls1 ++ calls2) d = recorded calls2 (recorded calls1 d).
Proof. unfold recorded. apply fold_left_app. Qed.

Lemma feedbacks_output_dict (self : CGSRegularizedEvolution)
    (calls : list (DNA * float)) :
  (0 <= population_size self)%Z ->
  forall w, output_dict (snd (feedbacks self calls w))
            = recorded calls (output_dict w).
Proof.
  intros Hs. induction calls as [ | [dna r] rest IH]; intros w.
  - reflexivity.
  - cbn [feedbacks fst snd]. unfold bind.
    destruct (feedback_population self dna r w Hs) as [Hok _].
    assert (Hd := feedback_output_dict self dna r w).
    destruct (feedback self dna r w) as [res w1]. simpl in Hok, Hd.
    subst res. rewrite IH, Hd. reflexivity.
Qed.

Lemma dict_set_keeps_keys (d : Dict) (k v k0 : float) :
  is_key d k0 -> is_key (dict_set d k v) k0.
Proof.
  intros (k1 & v1 & Hin & Hk). induction d as [ | [k2 v2] d IH];
    [destruct Hin | ].
  simpl. destruct (key_eqb k2 k) eqn:H2.
  - destruct Hin as [[= -> ->] | Hin].
    + exists k1, v. split; [now left | exact Hk].
    + exists k1, v1. split; [now right | exact Hk].
  - destruct Hin as [[= -> ->] | Hin].
    + exists k1, v1. split; [now left | exact Hk].
    + destruct (IH Hin) as (k3 & v3 & Hin3 & Hk3).
      exists k3, v3. split; [now right | exact Hk3].
Qed.

Lemma dict_set_length (d : Dict) (k v : float) :
  length (dict_set d k v) =
  if dict_contains d k then length d else S (length d).
Proof.
  unfold dict_contains. induction d as [ | [k0 v0] d IH]; simpl.
  - reflexivity.
  - destruct (key_eqb k0 k); simpl; [reflexivity | ].
    rewrite IH. destruct (dict_get d k); reflexivity.
Qed.

Lemma dict_set_keys (d : Dict) (k v : float) (a : float * float) :
  In a (dict_set d k v) ->
  (exists b, In b d /\ fst a = fst b) \/
  (a = (k, v) /\ dict_get d k = None).
Proof.
  induction d as [ | [k0 v0] d IH]; simpl.
  - intros [<- | []]. right. auto.
  - destruct (key_eqb k0 k) eqn:H0.
    + intros [<- | Hin]; left.
      * exists (k0, v0). split; [now left | reflexivity].
      * exists a. split; [now right | reflexivity].
    + intros [<- | Hin].
      * left. exists (k0, v0). split; [now left | reflexivity].
      * destruct (IH Hin) as [(b & Hb & Hab) | [-> Hnone]].
        -- left. exists b. split; [now right | exact Hab].
        -- right. auto.
Qed.

Lemma dict_get_None_keys (d : Dict) (k : float) (b : float * float) :
  dict_get d k = None -> In b d -> key_eqb (fst b) k = false.
Proof.
  induction d as [ | [k0 v0] d IH]; simpl; [intros _ [] | ].
  destruct (key_eqb k0 k) eqn:H0; [discriminate | ].
  intros Hn [<- | Hin]; [exact H0 | exact (IH Hn Hin)].
Qed.

Lemma dict_set_distinct (d : Dict) (k v : float) :
  distinct_keys d -> distinct_keys (dict_set d k v).
Proof.
  unfold distinct_keys. induction 1 as [ | [k0 v0] d Hall Hd IH]; simpl.
  - repeat constructor.
  - destruct (key_eqb k0 k) eqn:H0.
    + constructor; assumption.
    + constructor; [ | exact IH].
      apply Forall_forall. intros a Ha.
      destruct (dict_set_keys d k v a Ha) as [(b & Hb & Hab) | [-> _]].
      * rewrite Hab. exact (proj1 (Forall_forall _ _) Hall b Hb).
      * exact H0.
Qed.

(** X1. [update_output_dict] never forgets a fingerprint and adds at most
    one entry: every key of the mapping is still a key afterwards, the
    mapping has one entry more exactly when the genome's fingerprint was not
    yet a key, the collision is logged exactly when it was, and no two
    entries ever get equal keys. *)
Theorem update_output_dict_grows (dna : DNA) (reward : float) (w : World) :
  let k := to_json_value_last dna in
  let w' := snd (update_output_dict dna reward w) in
  (forall k0, is_key (output_dict w) k0 -> is_key (output_dict w') k0) /\
  length (output_dict w') =
    (if dict_contains (output_dict w) k
     then length (output_dict w) else S (length (output_dict w))) /\
  logged w' =
    logged w ++
    (if dict_contains (output_dict w) k then [LogDuplicateInDict k] else []) /\
  (distinct_keys (output_dict w) -> distinct_keys (output_dict w')).
Proof.
  intros k w'. subst w'.
  destruct (update_output_dict_dict dna reward w) as (_ & Hd & _).
  fold k in Hd. rewrite Hd. repeat split.
  - intros k0. apply dict_set_keeps_keys.
  - apply dict_set_length.
  - unfold update_output_dict, bind, read_output_dict. fold k.
    destruct (dict_contains (output_dict w) k); simpl;
      [reflexivity | now rewrite app_nil_r].
  - apply dict_set_distinct.
Qed.

(** X2. Last write wins: after a sequence of [feedback] calls, the duplicate
    check of a program reports a duplicate with the reward of the last call
    whose recorded fingerprint equals the program's fingerprint. *)
Theorem duplicate_check_reports_last_reward (self : CGSRegularizedEvolution)
    (m : DAGPointMutator) (program : CompiledProgram)
    (before after : list (DNA * float)) (dna : DNA) (reward : float)
    (w : World) :
  (0 <= population_size self)%Z ->
  key_eqb (to_json_value_last dna) (_compute_hash_output m program) = true ->
  Forall (fun call => key_eqb (key_of call) (_compute_hash_output m program)
                      = false) after ->
  let w' := snd (feedbacks self (before ++ (dna, reward) :: after) w) in
  _check_duplicate m program w' =
  (Ok (_compute_hash_output m program, true, reward), w').
Proof.
  intros Hs Hk Hafter w'. subst w'.
  rewrite _check_duplicate_eq, (feedbacks_output_dict self _ Hs).
  rewrite recorded_app.
  change (recorded ((dna, reward) :: after) ?d)
    with (recorded after (dict_set d (to_json_value_last dna) reward)).
  rewrite (dict_get_recorded_other after _ Hafter).
  rewrite (dict_get_set_eq _ _ _ _ Hk). reflexivity.
Qed.

(** X3. A fingerprint that was never recorded is not a duplicate: if it is
    no key of the mapping and no [feedback] call of a sequence records under
    an equal fingerprint, the duplicate check after the sequence answers
    [(fingerprint, False, 0.0)]. *)
Theorem duplicate_check_of_unrecorded (self : CGSRegularizedEvolution)
    (m : DAGPointMutator) (program : CompiledProgram)
    (calls : list (DNA * float)) (w : World) :
  (0 <= population_size self)%Z ->
  ~ is_key (output_dict w) (_compute_hash_output m program) ->
  Forall (fun call => key_eqb (key_of call) (_compute_hash_output m program)
                      = false) calls ->
  let w' := snd (feedbacks self calls w) in
  _check_duplicate m program w' =
  (Ok (_compute_hash_output m program, false, 0), w').
Proof.
  intros Hs Hk Hcalls w'. subst w'.
  rewrite _check_duplicate_eq, (feedbacks_output_dict self _ Hs).
  rewrite (dict_get_recorded_other calls _ Hcalls).
  destruct (dict_get (output_dict w) _) as [r | ] eqn:Hr; [ | reflexivity].
  exfalso. apply Hk, dict_get_is_key. eauto.
Qed.

End Tracker.

(** ** The fingerprint of a numerically valid program *)

Section FingerprintValue.

Context {E : Collaborators}.
Local Open Scope float_scope.

Lemma clip_inside (x : float) :
  (Np.finfo_float32_min <=? x) = true ->
  (x <=? Np.finfo_float32_max) = true ->
  Np.clip x Np.finfo_float32_min Np.finfo_float32_max = x.
Proof.
  intros Hlo Hhi.
  destruct (FloatOrder.leb_not_nan _ _ Hlo) as [_ Hn].
  unfold Np.clip, Np.maximum. rewrite Hn.
  assert (Hmax : (if Np.finfo_float32_min <? x
                  then x else Np.finfo_float32_min) = x).
  { destruct (Np.finfo_float32_min <? x) eqn:Hlt; [reflexivity | ].
    symmetry.
    exact (FloatOrderMore.leb_not_ltb_eq Np.finfo_float32_min x _ _ _
             eq_refl Hlo Hlt). }
  rewrite Hmax. unfold Np.minimum. rewrite Hn.
  destruct (x <? Np.finfo_float32_max) eqn:Hlt; [reflexivity | ].
  symmetry.
  exact (FloatOrderMore.leb_not_ltb_eq_r x Np.finfo_float32_max _ _ _
           eq_refl Hhi Hlt).
Qed.

Lemma clip_above (x : float) :
  (Np.finfo_float32_max <? x) = true ->
  Np.clip x Np.finfo_float32_min Np.finfo_float32_max
  = Np.finfo_float32_max.
Proof.
  intros Hhi.
  destruct (FloatOrder.ltb_not_nan _ _ Hhi) as [_ Hn].
  unfold Np.clip, Np.maximum. rewrite Hn.
  assert (Hlo : (Np.finfo_float32_min <? x) = true)
    by (apply (FloatOrderMore.ltb_trans _ Np.finfo_float32_max);
        [reflexivity | exact Hhi]).
  rewrite Hlo. unfold Np.minimum.
  rewrite Hn, (FloatOrderMore.ltb_asym _ _ Hhi). reflexivity.
Qed.

Lemma clip_below (x : float) :
  (x <? Np.finfo_float32_min) = true ->
  Np.clip x Np.finfo_float32_min Np.finfo_float32_max
  = Np.finfo_float32_min.
Proof.
  intros Hlo.
  destruct (FloatOrder.ltb_not_nan _ _ Hlo) as [Hn _].
  unfold Np.clip, Np.maximum.
  rewrite Hn, (FloatOrderMore.ltb_asym _ _ Hlo). reflexivity.
Qed.

(** X4. For a program whose summed output is neither NaN nor infinite, the
    fingerprint is the sum itself when the sum lies in the float32 range,
    and it saturates otherwise: every sum above [finfo(float32).max] gives
    the fingerprint [finfo(float32).max] and every sum below
    [finfo(float32).min] gives [finfo(float32).min]. *)
Theorem fingerprint_of_finite_sum (self : DAGPointMutator)
    (program : CompiledProgram) :
  numerically_invalid self program = false ->
  let s := raw_fingerprint self program in
  let fp := _compute_hash_output self program in
  ((Np.finfo_float32_min <=? s) = true ->
   (s <=? Np.finfo_float32_max) = true -> fp = s) /\
  ((Np.finfo_float32_max <? s) = true -> fp = Np.finfo_float32_max) /\
  ((s <? Np.finfo_float32_min) = true -> fp = Np.finfo_float32_min).
Proof.
  intros Hv s fp.
  assert (Hfp : fp = Np.clip s Np.finfo_float32_min Np.finfo_float32_max).
  { subst fp s. unfold _compute_hash_output.
    unfold numerically_invalid, raw_fingerprint in Hv. now rewrite Hv. }
  rewrite Hfp. repeat split.
  - apply clip_inside.
  - apply clip_above.
  - apply clip_below.
Qed.

End FingerprintValue.

(** ** The mutation target *)

Section Target.

Context {E : Collaborators}.

Lemma In_range (a b i : Z) : In i (range a b) <-> (a <= i < b)%Z.
Proof.
  unfold range. rewrite in_map_iff. split.
  - intros (n & <- & Hn). apply in_seq in Hn. lia.
  - intros H. exists (Z.to_nat (i - a)). split; [lia | ].
    apply in_seq. lia.
Qed.

Lemma range_nil (a b : Z) : (b <= a)%Z -> range a b = [].
Proof.
  intros H. unfold range. replace (Z.to_nat (b - a)) with 0 by lia.
  reflexivity.
Qed.

Lemma length_range (a b : Z) : length (range a b) = Z.to_nat (b - a).
Proof. unfold range. now rewrite length_map, length_seq. Qed.

Lemma removelast_range (a b : Z) :
  (a < b)%Z -> removelast (range a b) = range a (b - 1).
Proof.
  intros H. unfold range.
  replace (Z.to_nat (b - a)) with (S (Z.to_nat (b - 1 - a))) by lia.
  rewrite seq_S, map_app. simpl. apply removelast_last.
Qed.

Lemma getitem_nonneg {A} (l : list A) (i : Z) :
  (0 <= i < len l)%Z ->
  exists x, getitem l i = Ok x /\ nth_error l (Z.to_nat i) = Some x.
Proof.
  intros H. unfold getitem, len in *.
  replace (i <? 0)%Z with false by (symmetry; apply Z.ltb_ge; lia).
  replace (i <? 0)%Z with false by (symmetry; apply Z.ltb_ge; lia).
  destruct (nth_error l (Z.to_nat i)) as [x | ] eqn:Hx.
  - exists x. auto.
  - apply nth_error_None in Hx. lia.
Qed.

(** The candidate indices after the optional [del idxs[-1]]. *)
Lemma target_candidates (self : DAGPointMutator)
    (loss_program : CompiledProgram) (w : World) :
  let lo := (len (input_nodes self) + num_freeze_ops self)%Z in
  let hi := (len (ops_lst loss_program)
             - (if adjust_loss_weight self then 0 else 1))%Z in
  (lo < hi)%Z ->
  (if adjust_loss_weight self
   then ret (range lo (len (ops_lst loss_program)))
   else lift (del_last (range lo (len (ops_lst loss_program))))) w
  = (Ok (range lo hi), w).
Proof.
  intros lo hi H. subst hi. destruct (adjust_loss_weight self).
  - rewrite Z.sub_0_r. reflexivity.
  - unfold lift, del_last.
    rewrite <- removelast_range by lia.
    destruct (range lo (len (ops_lst loss_program))) eqn:Hr; [ | reflexivity].
    apply (f_equal (@length Z)) in Hr. rewrite length_range in Hr.
    simpl in Hr. lia.
Qed.

(** X5. [_sample_node_idx_to_mutate] picks a node that is neither an input
    node nor one of the first [num_freeze_ops] operators, and not the last
    node when the loss weight may not be adjusted; it returns that index,
    the index relative to the program list, and the node at that index,
    after one draw from the module-level generator and one log line.  When
    no such node exists it raises [IndexError]. *)
Theorem sampled_target_in_range (self : DAGPointMutator)
    (loss_program : CompiledProgram) (w : World) :
  let lo := (len (input_nodes self) + num_freeze_ops self)%Z in
  let hi := (len (ops_lst loss_program)
             - (if adjust_loss_weight self then 0 else 1))%Z in
  ((0 <= lo)%Z -> (lo < hi)%Z ->
   exists node_idx op,
     _sample_node_idx_to_mutate self loss_program w =
       (Ok (node_idx, (node_idx - len (input_nodes self))%Z, op),
        set_ambient
          (snd (Random.randbelow (Z.to_nat (hi - lo)) (py_random w)))
          (logged w ++ [LogMutatingOp op]) w) /\
     (lo <= node_idx < hi)%Z /\
     nth_error (ops_lst loss_program) (Z.to_nat node_idx) = Some op) /\
  ((hi <= lo)%Z ->
   fst (_sample_node_idx_to_mutate self loss_program w) = Raise IndexError).
Proof.
  intros lo hi. split.
  - intros H0 Hlt.
    assert (Hne : range lo hi <> []).
    { intros Hr. apply (f_equal (@length Z)) in Hr.
      rewrite length_range in Hr. simpl in Hr. lia. }
    destruct (choice_nonempty (range lo hi) (py_random w) Hne)
      as (node_idx & Hc & Hin).
    apply In_range in Hin. rewrite length_range in Hc.
    destruct (getitem_nonneg (ops_lst loss_program) node_idx) as (op & Hg & Hn).
    { subst hi. destruct (adjust_loss_weight self); lia. }
    exists node_idx, op. repeat split; try lia; [ | exact Hn].
    assert (Hcand := target_candidates self loss_program w Hlt).
    unfold _sample_node_idx_to_mutate. unfold bind at 1.
    fold lo. fold lo in Hcand. rewrite Hcand.
    unfold bind, with_py_random. fold hi. rewrite Hc. cbn [lift]. rewrite Hg.
    reflexivity.
  - intros Hle. unfold _sample_node_idx_to_mutate. unfold bind at 1.
    fold lo.
    destruct (adjust_loss_weight self) eqn:Ha; subst hi.
    + rewrite range_nil by lia. reflexivity.
    + destruct (Z.le_gt_cases (len (ops_lst loss_program)) lo) as [Hl | Hg].
      * rewrite range_nil by lia. reflexivity.
      * unfold lift, del_last.
        assert (Hr : removelast (range lo (len (ops_lst loss_program))) = [])
          by (rewrite removelast_range, range_nil; auto; lia).
        destruct (range lo (len (ops_lst loss_program))); [reflexivity | ].
        rewrite Hr. reflexivity.
Qed.

End Target.

(** ** The result of a point mutation *)

Section PointMutation.

Context {E : Collaborators}.

Lemma length_splice (pl : list (nat * list nat)) (i n : Z)
    (new : nat * list nat) :
  length (splice pl i n new) = length pl.
Proof.
  revert i. induction pl as [ | old rest IH]; intros i; simpl; auto.
Qed.

Lemma nth_error_splice (pl : list (nat * list nat)) (n : Z)
    (new : nat * list nat) :
  forall (i : Z) (j : nat),
    nth_error (splice pl i n new) j =
    if (i + Z.of_nat j =? n)%Z
    then option_map (fun _ => new) (nth_error pl j)
    else nth_error pl j.
Proof.
  induction pl as [ | old rest IH]; intros i j; simpl.
  - destruct j; simpl; now destruct (_ =? _)%Z.
  - destruct j as [ | j]; simpl.
    + rewrite Z.add_0_r. now destruct (i =? n)%Z.
    + rewrite IH. replace (i + 1 + Z.of_nat j)%Z with (i + Z.pos (Pos.of_succ_nat j))%Z
        by lia.
      reflexivity.
Qed.

Lemma splice_other (pl : list (nat * list nat)) (n : Z)
    (new : nat * list nat) (j : nat) :
  Z.of_nat j <> n -> nth_error (splice pl 0 n new) j = nth_error pl j.
Proof.
  intros H. rewrite nth_error_splice.
  replace (0 + Z.of_nat j =? n)%Z with false
    by (symmetry; apply Z.eqb_neq; lia).
  reflexivity.
Qed.

Lemma splice_at (pl : list (nat * list nat)) (n : Z) (new : nat * list nat) :
  (0 <= n < len pl)%Z ->
  nth_error (splice pl 0 n new) (Z.to_nat n) = Some new.
Proof.
  intros H. rewrite nth_error_splice.
  replace (0 + Z.of_nat (Z.to_nat n) =? n)%Z with true
    by (symmetry; apply Z.eqb_eq; lia).
  destruct (nth_error pl (Z.to_nat n)) eqn:Hn; [reflexivity | ].
  apply nth_error_None in Hn. unfold len in H. lia.
Qed.

Lemma nth_error_index (op_cls : OpCls) (l : list OpCls) :
  In op_cls l -> nth_error l (index OpCls_eqb op_cls l) = Some op_cls.
Proof.
  induction l as [ | y t IH]; simpl; [intros [] | ].
  destruct (OpCls_eqb y op_cls) eqn:Hy.
  - intros _. apply OpCls_eqb_eq in Hy. now subst.
  - intros [-> | Hin]; [ | exact (IH Hin)].
    assert (H : OpCls_eqb op_cls op_cls = true) by now apply OpCls_eqb_eq.
    congruence.
Qed.

(** X6. A structural mutation replaces exactly the target's entry: when the
    sampled target is not the loss node and [valid_lst] is not empty,
    [_alter_node_idx] returns a program list of the same length that agrees
    with the old one at every position but [n_idx], holds a member of
    [valid_lst] at [n_idx], and that member names a catalogue operator other
    than the loss operator; the other fields of the specification, the loss
    weight among them, are the constructor's defaults. *)
Theorem structural_mutation_splices (self : DAGPointMutator)
    (pl : list (nat * list nat)) (loss_program : CompiledProgram)
    (w w1 : World) (node_idx n_idx : Z) (op : Node)
    (valid_lst : list (nat * list nat)) (count : nat) :
  _sample_node_idx_to_mutate self loss_program w
    = (Ok (node_idx, n_idx, op), w1) ->
  isinstance op LossOpNode = false ->
  valid_lst_of self loss_program node_idx op = Ok (valid_lst, count) ->
  valid_lst <> [] ->
  exists chosen,
    In chosen valid_lst /\
    _alter_node_idx self pl loss_program w =
      (Ok {| program_lst := splice pl 0 n_idx chosen;
             loss_weight := loss_weight ProgramSpec_defaults;
             duplicate := duplicate ProgramSpec_defaults;
             reward := reward ProgramSpec_defaults;
             hash_output := hash_output ProgramSpec_defaults |},
       set_ambient
         (snd (Random.randbelow (length valid_lst) (py_random w1)))
         (logged w1 ++ [LogTried count; LogTookTime]) w1) /\
    length (splice pl 0 n_idx chosen) = length pl /\
    (forall i, Z.of_nat i <> n_idx ->
               nth_error (splice pl 0 n_idx chosen) i = nth_error pl i) /\
    ((0 <= n_idx < len pl)%Z ->
     nth_error (splice pl 0 n_idx chosen) (Z.to_nat n_idx) = Some chosen) /\
    exists op_cls,
      nth_error (operators self) (fst chosen) = Some op_cls /\
      op_cls <> LossOpNode.
Proof.
  intros Hs Hi Hv Hne.
  destruct (choice_nonempty valid_lst (py_random w1) Hne)
    as (chosen & Hc & Hin).
  exists chosen. repeat split.
  - exact Hin.
  - unfold _alter_node_idx, bind at 1. rewrite Hs, Hi.
    unfold bind, lift, with_py_random, logging_info. rewrite Hv.
    cbn [py_random logged output_dict population own_random].
    rewrite Hc. unfold ret, set_ambient.
    cbn [py_random logged output_dict population own_random].
    rewrite <- app_assoc. reflexivity.
  - apply length_splice.
  - intros i. apply splice_other.
  - apply splice_at.
  - destruct chosen as [op_idx input_idxs].
    unfold valid_lst_of in Hv.
    apply (try_ops_In _ _ _ _ _ _ _ Hv) in Hin
      as (op_cls & i & Hop & _ & Heq & _).
    apply possible_ops_of_In in Hop as [Hc1 Hc2]. inversion Heq; subst.
    exists op_cls. split; [now apply nth_error_index | exact Hc2].
Qed.

(** X7. When the sampled target leaves nothing to choose from (a structural
    target whose [valid_lst] is empty, or the loss node with an empty list
    of allowed weights), [_alter_node_idx] raises [IndexError] and the loop
    of [mutate] does not retry: it raises [IndexError] too, whatever the
    number of iterations it is allowed. *)
Theorem no_choice_raises (self : DAGPointMutator) (old_spec : DNASpec)
    (program_spec : ProgramSpec) (loss_program : CompiledProgram)
    (w w1 : World) (node_idx n_idx : Z) (op : Node) :
  _sample_node_idx_to_mutate self loss_program w
    = (Ok (node_idx, n_idx, op), w1) ->
  (isinstance op LossOpNode = false /\
   exists count,
     valid_lst_of self loss_program node_idx op = Ok ([], count)) \/
  (isinstance op LossOpNode = true /\
   exists last_op,
     getitem (ops_lst loss_program) (-1) = Ok last_op /\
     loss_weights last_op = []) ->
  fst (_alter_node_idx self (program_lst program_spec) loss_program w)
    = Raise IndexError /\
  forall fuel,
    fst (mutate_loop (S fuel) self old_spec program_spec loss_program w)
    = Raise IndexError.
Proof.
  intros Hs Hcase.
  assert (Halter :
    fst (_alter_node_idx self (program_lst program_spec) loss_program w)
    = Raise IndexError).
  { unfold _alter_node_idx, bind at 1. rewrite Hs.
    destruct Hcase as [(Hi & count & Hv) | (Hi & last_op & Hl & Hw)];
      rewrite Hi.
    - unfold bind, lift, with_py_random, logging_info. rewrite Hv.
      reflexivity.
    - unfold _alter_continuous, bind, lift, with_py_random.
      rewrite Hl, Hw. reflexivity. }
  split; [exact Halter | ].
  intros fuel. cbn [mutate_loop]. unfold bind at 1.
  destruct (_alter_node_idx self (program_lst program_spec) loss_program w)
    as [[sp | e | ] w2]; simpl in Halter; try discriminate.
  now inversion Halter.
Qed.

(** Whatever [_alter_node_idx] returns is a point mutant of the program list
    it was given. *)
Lemma _alter_node_idx_point (self : DAGPointMutator)
    (pl : list (nat * list nat)) (loss_program : CompiledProgram)
    (w w' : World) (spec' : ProgramSpec) :
  _alter_node_idx self pl loss_program w = (Ok spec', w') ->
  length (program_lst spec') = length pl /\
  exists n_idx : Z,
    forall i, Z.of_nat i <> n_idx ->
              nth_error (program_lst spec') i = nth_error pl i.
Proof.
  unfold _alter_node_idx, bind at 1.
  destruct (_sample_node_idx_to_mutate self loss_program w)
    as [[[[node_idx n_idx] op] | e | ] w1]; try discriminate.
  destruct (isinstance op LossOpNode).
  - unfold _alter_continuous, bind, lift, with_py_random.
    destruct (getitem (ops_lst loss_program) (-1)) as [last_op | e | ];
      try discriminate.
    destruct (Random.choice (loss_weights last_op) (py_random w1))
      as [[x | e | ] r]; try discriminate.
    intros [= <- _]. simpl. split; [reflexivity | ]. exists 0%Z. auto.
  - unfold bind, lift, with_py_random, logging_info.
    destruct (valid_lst_of self loss_program node_idx op)
      as [[valid_lst count] | e | ]; try discriminate.
    cbn [py_random].
    destruct (Random.choice valid_lst (py_random w1))
      as [[x | e | ] r]; try discriminate.
    intros [= <- _]. simpl. split; [apply length_splice | ].
    exists n_idx. intros i. apply splice_other.
Qed.

(** X8. Every genome that the point-mutation loop returns encodes a
    specification that [build_program] reported valid and whose program
    list is a point mutant of the parent's (same length, at most one
    position changed); the fingerprint in the genome is that of the built
    program, and the duplicate flag and reward are the mapping's answer for
    that fingerprint. *)
Theorem mutate_loop_returns_valid_point_mutant (fuel : nat)
    (self : DAGPointMutator) (old_spec : DNASpec) (program_spec : ProgramSpec)
    (loss_program : CompiledProgram) (w w' : World) (dna : DNA) :
  mutate_loop fuel self old_spec program_spec loss_program w = (Ok dna, w') ->
  exists new_spec new_program,
    build_program (input_nodes self) new_spec (operators self) 0
      = (new_program, true) /\
    length (program_lst new_spec) = length (program_lst program_spec) /\
    (exists n_idx : Z,
       forall i, Z.of_nat i <> n_idx ->
                 nth_error (program_lst new_spec) i
                 = nth_error (program_lst program_spec) i) /\
    let fp := _compute_hash_output self new_program in
    dna =
    use_spec
      (template_encode
         {| program_lst := program_lst new_spec;
            loss_weight := loss_weight new_spec;
            duplicate := dict_contains (output_dict w) fp;
            reward :=
              match dict_get (output_dict w) fp with
              | Some r => r
              | None => 0%float
              end;
            hash_output := fp |})
      old_spec.
Proof.
  revert w. induction fuel as [ | fuel IH]; intros w; cbn [mutate_loop];
    [discriminate | ].
  unfold bind at 1.
  assert (Hframe :=
    keeps_output_dict_frame _
      (mutator_frame__alter_node_idx self (program_lst program_spec)
         loss_program) w).
  destruct (_alter_node_idx self (program_lst program_spec) loss_program w)
    as [[new_spec | e | ] w2] eqn:Halter; try discriminate.
  simpl in Hframe.
  destruct (build_program (input_nodes self) new_spec (operators self) 0)
    as [new_program valid] eqn:Hb.
  destruct valid; cbn [negb].
  - unfold bind at 1. rewrite _check_duplicate_eq.
    destruct (_alter_node_idx_point _ _ _ _ _ _ Halter) as [Hlen Hpt].
    intros H. exists new_spec, new_program.
    split; [exact Hb | ]. split; [exact Hlen | ]. split; [exact Hpt | ].
    cbv zeta. rewrite <- Hframe. unfold dict_contains.
    destruct (dict_get (output_dict w2) _);
      unfold bind, logging_info, ret in H; now inversion H.
  - intros H. destruct (IH w2 H) as (sp & np & H1 & H2 & H3 & H4).
    exists sp, np. repeat split; auto. cbv zeta in *.
    now rewrite <- Hframe.
Qed.

End PointMutation.

(** ** Selection, configuration and the search loop *)

Section Search.

Context {E : Collaborators}.
Local Open Scope float_scope.

Lemma max_from_split (rest : list Individual) :
  forall (best : Individual) (pre mid : list Individual),
    (forall x, In x pre -> (ind_reward x <? ind_reward best) = true) ->
    (forall x, In x mid -> (ind_reward x <=? ind_reward best) = true) ->
    (forall x, In x (best :: rest) -> is_nan (ind_reward x) = false) ->
    exists before after,
      pre ++ best :: mid ++ rest = before ++ max_from best rest :: after /\
      (forall x, In x before ->
                 (ind_reward x <? ind_reward (max_from best rest)) = true) /\
      (forall x, In x after ->
                 (ind_reward x <=? ind_reward (max_from best rest)) = true).
Proof.
  induction rest as [ | x t IH]; intros best pre mid Hpre Hmid Hnan.
  - exists pre, mid. rewrite app_nil_r. auto.
  - cbn [max_from].
    assert (Hb : is_nan (ind_reward best) = false) by (apply Hnan; now left).
    assert (Hx : is_nan (ind_reward x) = false)
      by (apply Hnan; right; now left).
    destruct (ind_reward best <? ind_reward x) eqn:Hlt.
    + destruct (IH x (pre ++ best :: mid) []) as (before & after & Heq & H1 & H2).
      * intros y Hy. apply in_app_or in Hy as [Hy | [<- | Hy]].
        -- exact (FloatOrderMore.ltb_trans _ _ _ (Hpre y Hy) Hlt).
        -- exact Hlt.
        -- exact (FloatOrderMore.leb_ltb_ltb _ _ _ (Hmid y Hy) Hlt).
      * intros y [].
      * intros y Hy. apply Hnan. now right.
      * exists before, after. split; [ | auto].
        rewrite <- Heq. rewrite <- app_assoc. reflexivity.
    + destruct (IH best pre (mid ++ [x])) as (before & after & Heq & H1 & H2).
      * exact Hpre.
      * intros y Hy. apply in_app_or in Hy as [Hy | [<- | []]]; auto.
        now apply FloatOrder.not_ltb_leb.
      * intros y [<- | Hy]; [exact Hb | ]. apply Hnan. right. now right.
      * exists before, after. split; [ | auto].
        rewrite <- Heq. rewrite <- app_assoc. reflexivity.
Qed.

(** X9. Ties in the tournament go to the earliest member: with rewards that
    are numbers, the selected individual splits the tournament into members
    before it, all of strictly smaller reward, and members after it, none of
    larger reward.  An empty tournament raises [ValueError]. *)
Theorem max_by_reward_first_maximum (tournament : list Individual) :
  (forall x, In x tournament -> is_nan (ind_reward x) = false) ->
  (tournament = [] -> max_by_reward tournament = Raise ValueError) /\
  (tournament <> [] ->
   exists selected before after,
     max_by_reward tournament = Ok selected /\
     tournament = before ++ selected :: after /\
     (forall x, In x before ->
                (ind_reward x <? ind_reward selected) = true) /\
     (forall x, In x after ->
                (ind_reward x <=? ind_reward selected) = true)).
Proof.
  intros Hnan. split; [intros ->; reflexivity | ].
  destruct tournament as [ | best rest]; [congruence | intros _].
  destruct (max_from_split rest best [] []
              (fun x (H : In x []) => match H with end)
              (fun x (H : In x []) => match H with end) Hnan)
    as (before & after & Heq & H1 & H2).
  exists (max_from best rest), before, after. auto.
Qed.

Lemma select_parent_population (fuel : nat) (self : CGSRegularizedEvolution)
    (w : World) :
  population (snd (select_parent fuel self w)) = population w.
Proof.
  unfold select_parent, bind, read_population.
  destruct (len (population w) =? population_size self)%Z; cbn [py_assert];
    [ | reflexivity].
  cbn [ret raise]. rewrite with_self_random_eq.
  assert (Hp : forall r, population (advance_self_random r w) = population w)
    by (intros r; unfold advance_self_random; destruct (own_random w);
        reflexivity).
  destruct (fst _) as [t | e | ]; cbn [lift]; try apply Hp.
  destruct (max_by_reward t); apply Hp.
Qed.

Lemma mutate_population (fuel : nat) (m : DAGPointMutator) (dna : DNA)
    (w : World) :
  population (snd (mutate fuel m dna w)) = population w.
Proof.
  destruct (mutator_frame_mutate fuel m dna w (population w) (own_random w))
    as [H _].
  rewrite set_controller_state_same in H. rewrite H at 1. reflexivity.
Qed.

Lemma propose_population (fuel : nat) (self : CGSRegularizedEvolution)
    (w : World) :
  population (snd (propose fuel self w)) = population w.
Proof.
  unfold propose, bind at 1. unfold read_population.
  destruct (_ <? _)%Z.
  - unfold bind, with_py_random.
    destruct (sample_valid_program_spec _ _ _ _ _ _). reflexivity.
  - unfold bind. assert (Hs := select_parent_population fuel self w).
    destruct (select_parent fuel self w) as [[[t sel] | e | ] w1];
      simpl in *; auto.
    now rewrite mutate_population.
Qed.

(** X11. [propose] on a population larger than [population_size] fails its
    assertion: it raises [AssertionError] before any draw and leaves the
    world as it was. *)
Theorem propose_overfull_asserts (fuel : nat) (self : CGSRegularizedEvolution)
    (w : World) :
  (population_size self < len (population w))%Z ->
  propose fuel self w = (Raise AssertionError, w).
Proof.
  intros H. unfold propose, bind at 1. unfold read_population.
  replace (len (population w) <? population_size self)%Z with false
    by (symmetry; apply Z.ltb_ge; lia).
  unfold bind at 1. unfold select_parent, bind, read_population.
  replace (len (population w) =? population_size self)%Z with false
    by (symmetry; apply Z.eqb_neq; lia).
  reflexivity.
Qed.

(** X12. One [feedback] restores the bound from any population, however
    large, and never drops the individual it was given: for
    [population_size >= 1] the new population is some newest part of the old
    one followed by the new individual, and it has at most [population_size]
    members. *)
Theorem feedback_keeps_newest (self : CGSRegularizedEvolution) (dna : DNA)
    (reward : float) (w : World) :
  (1 <= population_size self)%Z ->
  let w' := snd (feedback self dna reward w) in
  fst (feedback self dna reward w) = Ok tt /\
  (len (population w') <= population_size self)%Z /\
  exists dropped kept,
    population w = dropped ++ kept /\
    population w' = kept ++ [individual_of (dna, reward)].
Proof.
  intros Hs w'. subst w'.
  destruct (feedback_population self dna reward w ltac:(lia)) as [Hok Hpop].
  rewrite evict_skipn in Hpop by lia. rewrite Hpop.
  split; [exact Hok | ]. split.
  - unfold len. rewrite length_skipn. lia.
  - set (k := (length (population w ++ [individual_of (dna, reward)])
               - Z.to_nat (population_size self))%nat).
    assert (Hk : (k <= length (population w))%nat)
      by (subst k; rewrite length_app; simpl; lia).
    exists (firstn k (population w)), (skipn k (population w)).
    split; [symmetry; apply firstn_skipn | ].
    rewrite skipn_app.
    replace (k - length (population w))%nat with 0%nat by lia.
    reflexivity.
Qed.

(** X13. A search loop that comes to its end has proposed [n] genomes; the
    population then is the newest part, at most [population_size] long, of
    the old population followed by the proposed genomes with their
    evaluated rewards, in order, and the mapping is the old one with each
    of these rewards recorded in turn. *)
Theorem search_loop_population (fuel : nat) (self : CGSRegularizedEvolution)
    (evaluate : DNA -> float) (n : nat) (w w' : World) (genomes : list DNA) :
  (0 <= population_size self)%Z ->
  (len (population w) <= population_size self)%Z ->
  search_loop fuel self evaluate n w = (Ok genomes, w') ->
  let calls := map (fun dna => (dna, evaluate dna)) genomes in
  let inserted := population w ++ map individual_of calls in
  length genomes = n /\
  population w' =
    skipn (length inserted - Z.to_nat (population_size self))%nat inserted /\
  (len (population w') <= population_size self)%Z /\
  output_dict w' = recorded calls (output_dict w).
Proof.
  intros Hs. revert w genomes.
  induction n as [ | n IH]; intros w genomes Hlen; cbn [search_loop].
  - intros [= <- <-]. simpl. rewrite app_nil_r. repeat split; auto.
    unfold len in Hlen.
    replace (length (population w) - Z.to_nat (population_size self))%nat
      with 0%nat by lia.
    reflexivity.
  - unfold bind at 1.
    assert (Hpp := propose_population fuel self w).
    assert (Hpd := keeps_output_dict_propose fuel self w).
    destruct (propose fuel self w) as [[dna | e | ] w1]; try discriminate.
    simpl in Hpp, Hpd. unfold bind at 1.
    destruct (feedback_population self dna (evaluate dna) w1 Hs)
      as [Hok Hpop].
    assert (Hfd := feedback_output_dict self dna (evaluate dna) w1).
    destruct (feedback self dna (evaluate dna) w1) as [res w2].
    simpl in Hok, Hpop, Hfd. subst res.
    rewrite evict_skipn in Hpop by exact Hs.
    assert (Hlen2 : (len (population w2) <= population_size self)%Z)
      by (rewrite Hpop; unfold len; rewrite length_skipn; lia).
    unfold bind at 1.
    destruct (search_loop fuel self evaluate n w2) as [[rest | e | ] w3] eqn:Hl;
      try discriminate.
    intros [= <- <-].
    destruct (IH w2 rest Hlen2 Hl) as (H1 & H2 & H3 & H4).
    cbv zeta in *. cbn [map length]. repeat split.
    + now rewrite H1.
    + rewrite H2, Hpop, Hpp.
      rewrite (suffix_step (Z.to_nat (population_size self))
                 (population w ++ [individual_of (dna, evaluate dna)])).
      now rewrite <- app_assoc.
    + exact H3.
    + rewrite H4, Hfd, Hpd. reflexivity.
Qed.

(** X16. Without a seed the controller's generator is the [random] module
    itself: the tournament of [select_parent] is then the one that a
    generator of its own in the state of the module-level generator would
    draw, but the draw advances the module-level generator, the one the
    mutator draws from, and the controller still has no generator of its
    own afterwards. *)
Theorem unseeded_tournament_shares_generator (fuel : nat)
    (self : CGSRegularizedEvolution) (w : World) :
  own_random w = None ->
  len (population w) = population_size self ->
  (0 <= tournament_size self <= population_size self)%Z ->
  let drawn :=
    Random.sample_positions fuel (length (population w))
      (Z.to_nat (tournament_size self)) (py_random w) in
  let seeded := set_controller_state (population w) (Some (py_random w)) w in
  fst (select_parent fuel self w) = fst (select_parent fuel self seeded) /\
  py_random (snd (select_parent fuel self w)) = snd drawn /\
  own_random (snd (select_parent fuel self w)) = None /\
  py_random (snd (select_parent fuel self seeded)) = py_random w /\
  own_random (snd (select_parent fuel self seeded)) = Some (snd drawn).
Proof.
  intros Ho Hfull Ht drawn seeded.
  assert (H1 := select_parent_full fuel self w Hfull Ht).
  assert (H2 := select_parent_full fuel self seeded Hfull Ht).
  cbv zeta in H1, H2. subst seeded.
  unfold self_random, advance_self_random in H1, H2.
  cbn [own_random population set_controller_state] in H2.
  rewrite Ho in H1. fold drawn in H1, H2.
  rewrite H1, H2. cbn [fst snd]. repeat split.
  unfold set_ambient. cbn [own_random]. exact Ho.
Qed.

End Search.

(** ** The enumeration of candidates *)

Section Enumeration.

Context {E : Collaborators}.

Lemma gather_Ok_range {A} (l : list A) (idxs : list nat) (xs : list A) :
  gather l idxs = Ok xs -> Forall (fun i => i < length l) idxs.
Proof.
  revert xs. induction idxs as [ | i t IH]; intros xs; simpl.
  - constructor.
  - destruct (nth_error l i) as [x | ] eqn:Hx; [ | discriminate].
    destruct (gather l t) as [ys | e | ]; try discriminate.
    intros _. constructor; [ | exact (IH ys eq_refl)].
    apply nth_error_Some. congruence.
Qed.

Lemma try_candidate_total is_leaf all_inputs op_to_replace op_cls op_idx
    input_idxs :
  Forall (fun i => i < length all_inputs) input_idxs ->
  exists l,
    try_candidate is_leaf all_inputs op_to_replace op_cls op_idx input_idxs
      = Ok l /\ length l <= 1.
Proof.
  intros H. unfold try_candidate.
  destruct (SampleFacts.gather_in_range all_inputs input_idxs H)
    as (xs & -> & _).
  destruct (precheck_valid_input op_cls xs); [ | exists []; auto].
  destruct is_leaf; [eexists; split; [reflexivity | simpl; lia] | ].
  destruct (DType_eqb _ _); eexists; split; try reflexivity; simpl; lia.
Qed.

Lemma try_inputs_total is_leaf all_inputs op_to_replace op_cls op_idx
    candidates :
  Forall (Forall (fun i => i < length all_inputs)) candidates ->
  exists l,
    try_inputs is_leaf all_inputs op_to_replace op_cls op_idx candidates
      = Ok l /\ length l <= length candidates.
Proof.
  induction 1 as [ | c rest Hc _ (more & Hm & Hlen)]; cbn [try_inputs].
  - exists []. auto.
  - destruct (try_candidate_total is_leaf all_inputs op_to_replace op_cls
                op_idx c Hc) as (here & -> & Hh).
    rewrite Hm. exists (here ++ more). split; [reflexivity | ].
    rewrite length_app. simpl. lia.
Qed.

Lemma try_ops_total self is_leaf all_inputs op_to_replace possible_ops :
  (forall op_cls idxs,
     In op_cls possible_ops ->
     In idxs (get_possible_input_idxs op_cls (length all_inputs)) ->
     Forall (fun i => i < length all_inputs) idxs) ->
  exists l,
    try_ops self is_leaf all_inputs op_to_replace possible_ops =
      Ok (l, list_sum
               (map (fun c => length (get_possible_input_idxs
                                         c (length all_inputs)))
                    possible_ops)) /\
    length l <=
      list_sum (map (fun c => length (get_possible_input_idxs
                                         c (length all_inputs)))
                    possible_ops).
Proof.
  induction possible_ops as [ | c rest IH]; intros Hrange; cbn [try_ops].
  - exists []. auto.
  - destruct (try_inputs_total is_leaf all_inputs op_to_replace c
                (index OpCls_eqb c (operators self))
                (get_possible_input_idxs c (length all_inputs)))
      as (here & -> & Hh).
    { apply Forall_forall. intros idxs Hin.
      apply (Hrange c idxs); [now left | exact Hin]. }
    destruct IH as (more & -> & Hm).
    { intros c' idxs Hc'. apply Hrange. now right. }
    exists (here ++ more). split; [reflexivity | ].
    rewrite length_app. unfold list_sum in *. cbn [map fold_right]. lia.
Qed.

(** X14. When every enumerated index combination stays within [all_inputs]
    (as combinations drawn from [range(len(all_inputs))] do), the
    enumeration of a structural mutation does not fail: it yields a
    [valid_lst] and the count that is logged, which is the number of
    combinations enumerated over the non-loss operators of the catalogue,
    and [valid_lst] holds at most that many pairs. *)
Theorem valid_lst_of_total (self : DAGPointMutator)
    (loss_program : CompiledProgram) (node_idx : Z) (op_to_replace : Node) :
  let all_inputs := all_inputs_of loss_program node_idx in
  let count :=
    list_sum
      (map (fun c => length (get_possible_input_idxs c (length all_inputs)))
           (possible_ops_of self)) in
  (forall op_cls idxs,
     In op_cls (possible_ops_of self) ->
     In idxs (get_possible_input_idxs op_cls (length all_inputs)) ->
     Forall (fun i => i < length all_inputs) idxs) ->
  exists valid_lst,
    valid_lst_of self loss_program node_idx op_to_replace
      = Ok (valid_lst, count) /\
    length valid_lst <= count.
Proof.
  intros all_inputs count Hrange. unfold valid_lst_of.
  exact (try_ops_total self _ all_inputs op_to_replace _ Hrange).
Qed.

(** X15. A structural mutation never introduces a forward reference: for a
    target at index [node_idx >= 1], every input index of every pair in
    [valid_lst] is below [node_idx - 1], so it names a node that comes
    strictly before the target. *)
Theorem valid_lst_inputs_precede_target (self : DAGPointMutator)
    (loss_program : CompiledProgram) (node_idx : Z) (op_to_replace : Node)
    (valid_lst : list (nat * list nat)) (count : nat) :
  (1 <= node_idx)%Z ->
  valid_lst_of self loss_program node_idx op_to_replace
    = Ok (valid_lst, count) ->
  forall op_idx input_idxs,
    In (op_idx, input_idxs) valid_lst ->
    Forall (fun i => (Z.of_nat i < node_idx - 1)%Z
                     /\ i < length (ops_lst loss_program))
           input_idxs.
Proof.
  intros Hk Hv op_idx input_idxs Hin. unfold valid_lst_of in Hv.
  apply (try_ops_In _ _ _ _ _ _ _ Hv) in Hin
    as (op_cls & i & _ & _ & Heq & ops & Hg & _).
  inversion Heq; subst. apply gather_Ok_range in Hg.
  rewrite (all_inputs_of_prefix loss_program node_idx Hk) in Hg.
  rewrite length_firstn in Hg.
  eapply Forall_impl; [ | exact Hg]. simpl. intros j Hj. lia.
Qed.

End Enumeration.

(** ** The further properties on the small search space *)

Section OnToyMore.

Import Toy.
#[local] Existing Instance collaborators.

(** A genome of the chain that carries the fingerprint [h]. *)
Let genome (h : float) : DNA :=
  ({| program_lst := [(1, [0]); (2, [1]); (0, [2])];
      loss_weight := 1%float;
      duplicate := false;
      reward := 0%float;
      hash_output := h |}, 0).

(** X2 at the chain, whose fingerprint is 3: recorded with reward 7 between
    two records under other fingerprints. *)
Lemma duplicate_check_reports_last_reward_witness :
  let before := [(genome 0%float, 1%float)] in
  let after := [(genome 5%float, 2%float)] in
  let w := world_of [] [] [] None in
  let w' :=
    snd (feedbacks the_controller
           (before ++ (genome 3%float, 7%float) :: after) w) in
  (0 <= population_size the_controller)%Z /\
  key_eqb (to_json_value_last (genome 3%float))
          (_compute_hash_output the_mutator chain) = true /\
  _check_duplicate the_mutator chain w' =
  (Ok (_compute_hash_output the_mutator chain, true, 7%float), w').
Proof.
  intros before after w w'.
  assert (H0 : (0 <= population_size the_controller)%Z) by (simpl; lia).
  split; [exact H0 | ]. split; [reflexivity | ].
  exact (duplicate_check_reports_last_reward the_controller the_mutator chain
           before after (genome 3%float) 7%float w H0 eq_refl
           ltac:(repeat constructor)).
Defined.

(** X3 at the chain and an empty mapping, after one record under the
    fingerprint 5. *)
Lemma duplicate_check_of_unrecorded_witness :
  let calls := [(genome 5%float, 2%float)] in
  let w := world_of [] [] [] None in
  let w' := snd (feedbacks the_controller calls w) in
  (0 <= population_size the_controller)%Z /\
  _check_duplicate the_mutator chain w' =
  (Ok (_compute_hash_output the_mutator chain, false, 0%float), w').
Proof.
  intros calls w w'.
  assert (H0 : (0 <= population_size the_controller)%Z) by (simpl; lia).
  assert (H1 : ~ is_key (output_dict w)
                        (_compute_hash_output the_mutator chain))
    by (intros (k & v & [] & _)).
  split; [exact H0 | ].
  exact (duplicate_check_of_unrecorded the_controller the_mutator chain
           calls w H0 H1 ltac:(repeat constructor)).
Defined.

(** X4 at the chain, whose outputs sum to 3. *)
Lemma fingerprint_of_finite_sum_witness :
  let s := raw_fingerprint the_mutator chain in
  let fp := _compute_hash_output the_mutator chain in
  numerically_invalid the_mutator chain = false /\
  ((Np.finfo_float32_min <=? s)%float = true ->
   (s <=? Np.finfo_float32_max)%float = true -> fp = s) /\
  ((Np.finfo_float32_max <? s)%float = true -> fp = Np.finfo_float32_max) /\
  ((s <? Np.finfo_float32_min)%float = true -> fp = Np.finfo_float32_min).
Proof.
  intros s fp. split; [reflexivity | ].
  exact (fingerprint_of_finite_sum the_mutator chain eq_refl).
Defined.

(** X6 at the chain with node B (index 2) sampled. *)
Lemma structural_mutation_splices_witness :
  let pl := program_lst fresh_spec in
  let w := world_of [1; 0]%N [] [] None in
  let w1 := snd (_sample_node_idx_to_mutate the_mutator chain w) in
  let valid_lst := [(2, [0])] in
  _sample_node_idx_to_mutate the_mutator chain w
    = (Ok (2%Z, 1%Z, (2, 2)), w1) /\
  valid_lst_of the_mutator chain 2 (2, 2) = Ok (valid_lst, 4) /\
  exists chosen,
    In chosen valid_lst /\
    _alter_node_idx the_mutator pl chain w =
      (Ok {| program_lst := splice pl 0 1 chosen;
             loss_weight := loss_weight ProgramSpec_defaults;
             duplicate := duplicate ProgramSpec_defaults;
             reward := reward ProgramSpec_defaults;
             hash_output := hash_output ProgramSpec_defaults |},
       set_ambient
         (snd (Random.randbelow (length valid_lst) (py_random w1)))
         (logged w1 ++ [LogTried 4; LogTookTime]) w1) /\
    length (splice pl 0 1 chosen) = length pl /\
    (forall i, Z.of_nat i <> 1%Z ->
               nth_error (splice pl 0 1 chosen) i = nth_error pl i) /\
    ((0 <= 1 < len pl)%Z ->
     nth_error (splice pl 0 1 chosen) (Z.to_nat 1) = Some chosen) /\
    exists op_cls : OpCls,
      nth_error (operators the_mutator) (fst chosen) = Some op_cls /\
      op_cls <> LossOpNode.
Proof.
  intros pl w w1 valid_lst.
  split; [reflexivity | ]. split; [reflexivity | ].
  exact (structural_mutation_splices the_mutator pl chain w w1 2 1 (2, 2)
           valid_lst 4 eq_refl eq_refl eq_refl ltac:(discriminate)).
Defined.

(** X7 at the chain with node A (index 1) sampled: [all_inputs] is empty, so
    there is no candidate. *)
Lemma no_choice_raises_witness :
  let w := world_of [0]%N [] [] None in
  let w1 := snd (_sample_node_idx_to_mutate the_mutator chain w) in
  _sample_node_idx_to_mutate the_mutator chain w
    = (Ok (1%Z, 0%Z, (1, 1)), w1) /\
  valid_lst_of the_mutator chain 1 (1, 1) = Ok ([], 0) /\
  fst (_alter_node_idx the_mutator (program_lst fresh_spec) chain w)
    = Raise IndexError /\
  forall fuel,
    fst (mutate_loop (S fuel) the_mutator 0 fresh_spec chain w)
    = Raise IndexError.
Proof.
  intros w w1. split; [reflexivity | ]. split; [reflexivity | ].
  exact (no_choice_raises the_mutator 0 fresh_spec chain w w1 1 0 (1, 1)
           eq_refl
           (or_introl (conj eq_refl (ex_intro _ 0 eq_refl)))).
Defined.

(** X8 at the chain with the loss node sampled and the fingerprint 3 in the
    mapping. *)
Lemma mutate_loop_returns_valid_point_mutant_witness :
  let w := world_of [2; 1]%N [(3, 7)]%float [] None in
  let out := mutate_loop 1 the_mutator 0 fresh_spec chain w in
  let dna : DNA :=
    ({| program_lst := [(1, [0]); (2, [1]); (0, [2])];
        loss_weight := 1.5%float;
        duplicate := true;
        reward := 7%float;
        hash_output := 3%float |}, 0) in
  out = (Ok dna, snd out) /\
  exists new_spec new_program,
    build_program (input_nodes the_mutator) new_spec
      (operators the_mutator) 0 = (new_program, true) /\
    length (program_lst new_spec) = length (program_lst fresh_spec) /\
    (exists n_idx : Z,
       forall i, Z.of_nat i <> n_idx ->
                 nth_error (program_lst new_spec) i
                 = nth_error (program_lst fresh_spec) i) /\
    let fp := _compute_hash_output the_mutator new_program in
    dna =
    use_spec
      (template_encode
         {| program_lst := program_lst new_spec;
            loss_weight := loss_weight new_spec;
            duplicate := dict_contains (output_dict w) fp;
            reward :=
              match dict_get (output_dict w) fp with
              | Some r => r
              | None => 0%float
              end;
            hash_output := fp |})
      0.
Proof.
  intros w out dna. split; [reflexivity | ].
  exact (mutate_loop_returns_valid_point_mutant 1 the_mutator 0 fresh_spec
           chain w (snd out) dna eq_refl).
Defined.

(** X9 at a tournament with rewards 1, 2, 2. *)
Lemma max_by_reward_first_maximum_witness :
  let a := {| ind_dna := chain_dna; ind_reward := 1%float |} in
  let b := {| ind_dna := genome 3%float; ind_reward := 2%float |} in
  let c := {| ind_dna := genome 5%float; ind_reward := 2%float |} in
  let tournament := [a; b; c] in
  (tournament = [] -> max_by_reward tournament = Raise ValueError) /\
  (tournament <> [] ->
   exists selected before after,
     max_by_reward tournament = Ok selected /\
     tournament = before ++ selected :: after /\
     (forall x, In x before ->
                (ind_reward x <? ind_reward selected)%float = true) /\
     (forall x, In x after ->
                (ind_reward x <=? ind_reward selected)%float = true)).
Proof.
  intros a b c tournament.
  assert (Hnan : forall x, In x tournament -> is_nan (ind_reward x) = false)
    by (intros x [<- | [<- | [<- | []]]]; reflexivity).
  exact (max_by_reward_first_maximum tournament Hnan).
Defined.

(** X11 at three individuals in a controller of population size 2. *)
Lemma propose_overfull_asserts_witness :
  let a := {| ind_dna := chain_dna; ind_reward := 1%float |} in
  let w := world_of [] [] [a; a; a] None in
  (population_size the_controller < len (population w))%Z /\
  propose 1 the_controller w = (Raise AssertionError, w).
Proof.
  intros a w.
  assert (H : (population_size the_controller < len (population w))%Z)
    by (unfold len; simpl; lia).
  split; [exact H | ].
  exact (propose_overfull_asserts 1 the_controller w H).
Defined.

(** X12 at three individuals in a controller of population size 2. *)
Lemma feedback_keeps_newest_witness :
  let a := {| ind_dna := chain_dna; ind_reward := 1%float |} in
  let w := world_of [] [] [a; a; a] None in
  let w' := snd (feedback the_controller chain_dna 2%float w) in
  (1 <= population_size the_controller)%Z /\
  fst (feedback the_controller chain_dna 2%float w) = Ok tt /\
  (len (population w') <= population_size the_controller)%Z /\
  exists dropped kept,
    population w = dropped ++ kept /\
    population w' = kept ++ [individual_of (chain_dna, 2%float)].
Proof.
  intros a w w'.
  assert (H : (1 <= population_size the_controller)%Z) by (simpl; lia).
  split; [exact H | ].
  exact (feedback_keeps_newest the_controller chain_dna 2%float w H).
Defined.

(** X13 at three rounds of a controller of population size 2. *)
Lemma search_loop_population_witness :
  let evaluate := fun _ : DNA => 1%float in
  let w :=
    world_of [0; 1; 3]%N [] [] (Some (Random_of_seed 7)) in
  let out := search_loop 3 the_controller evaluate 3 w in
  let mutated : DNA :=
    ({| program_lst := [(1, [0]); (2, [0]); (0, [2])];
        loss_weight := 1%float;
        duplicate := false;
        reward := 0%float;
        hash_output := 3%float |}, 0) in
  let genomes := [chain_dna; chain_dna; mutated] in
  let w' := snd out in
  let calls := map (fun dna => (dna, evaluate dna)) genomes in
  let inserted := population w ++ map individual_of calls in
  (0 <= population_size the_controller)%Z /\
  (len (population w) <= population_size the_controller)%Z /\
  length genomes = 3 /\
  population w' =
    skipn (length inserted - Z.to_nat (population_size the_controller))
          inserted /\
  (len (population w') <= population_size the_controller)%Z /\
  output_dict w' = recorded calls (output_dict w).
Proof.
  intros evaluate w out mutated genomes w' calls inserted.
  assert (H0 : (0 <= population_size the_controller)%Z) by (simpl; lia).
  assert (H1 : (len (population w) <= population_size the_controller)%Z)
    by (unfold len; simpl; lia).
  split; [exact H0 | ]. split; [exact H1 | ].
  assert (H2 : search_loop 3 the_controller evaluate 3 w = (Ok genomes, w'))
    by (vm_compute; reflexivity).
  exact (search_loop_population 3 the_controller evaluate 3 w w' genomes
           H0 H1 H2).
Defined.

(** X16 at a full population of two and an unseeded controller state. *)
Lemma unseeded_tournament_shares_generator_witness :
  let a := {| ind_dna := chain_dna; ind_reward := 1%float |} in
  let b := {| ind_dna := genome 3%float; ind_reward := 2%float |} in
  let self := the_controller in
  let w := world_of [1; 0]%N [] [a; b] None in
  let drawn :=
    Random.sample_positions 1 (length (population w))
      (Z.to_nat (tournament_size self)) (py_random w) in
  let seeded := set_controller_state (population w) (Some (py_random w)) w in
  own_random w = None /\
  len (population w) = population_size self /\
  (0 <= tournament_size self <= population_size self)%Z /\
  fst (select_parent 1 self w) = fst (select_parent 1 self seeded) /\
  py_random (snd (select_parent 1 self w)) = snd drawn /\
  own_random (snd (select_parent 1 self w)) = None /\
  py_random (snd (select_parent 1 self seeded)) = py_random w /\
  own_random (snd (select_parent 1 self seeded)) = Some (snd drawn).
Proof.
  intros a b self w drawn seeded.
  assert (H : (0 <= tournament_size self <= population_size self)%Z)
    by (simpl; lia).
  split; [reflexivity | ]. split; [reflexivity | ]. split; [exact H | ].
  exact (unseeded_tournament_shares_generator 1 self w eq_refl eq_refl H).
Defined.

(** X14 at the chain with target B (index 2). *)
Lemma valid_lst_of_total_witness :
  let all_inputs := all_inputs_of chain 2 in
  let count :=
    list_sum
      (map (fun c : OpCls =>
              length (get_possible_input_idxs c (length all_inputs)))
           (possible_ops_of the_mutator)) in
  (forall (op_cls : OpCls) idxs,
     In op_cls (possible_ops_of the_mutator) ->
     In idxs (get_possible_input_idxs op_cls (length all_inputs)) ->
     Forall (fun i => i < length all_inputs) idxs) /\
  exists valid_lst,
    valid_lst_of the_mutator chain 2 (2, 2) = Ok (valid_lst, count) /\
    length valid_lst <= count.
Proof.
  intros all_inputs count.
  assert (H : forall (op_cls : OpCls) idxs,
            In op_cls (possible_ops_of the_mutator) ->
            In idxs (get_possible_input_idxs op_cls (length all_inputs)) ->
            Forall (fun i => i < length all_inputs) idxs).
  { intros op_cls idxs _ Hin. simpl in Hin.
    destruct Hin as [<- | []]. repeat constructor. }
  split; [exact H | ].
  exact (valid_lst_of_total the_mutator chain 2 (2, 2) H).
Defined.

(** X15 at the chain with target B (index 2) and its one candidate. *)
Lemma valid_lst_inputs_precede_target_witness :
  (1 <= 2)%Z /\
  valid_lst_of the_mutator chain 2 (2, 2) = Ok ([(2, [0])], 4) /\
  (In (2, [0]) [(2, [0])] ->
   Forall (fun i => (Z.of_nat i < 2 - 1)%Z /\ i < length (ops_lst chain))
          [0]).
Proof.
  assert (H : (1 <= 2)%Z) by lia.
  split; [exact H | ]. split; [reflexivity | ].
  exact (valid_lst_inputs_precede_target the_mutator chain 2 (2, 2)
           [(2, [0])] 4 H eq_refl 2 [0]).
Defined.

End OnToyMore.

(** * What the mutator reads and writes *)

Section Locality.

Context {E : Collaborators}.

Lemma world_with_same (w : World) :
  world_with (py_random w) (logged w) (population w) (own_random w) w = w.
Proof. destruct w; reflexivity. Qed.

Lemma mutator_local_ret {A} (a : A) : mutator_local (ret a).
Proof.
  intros w. exists (Ok a), (py_random w), []. intros l p o.
  now rewrite app_nil_r.
Qed.

Lemma mutator_local_lift {A} (x : Result A) : mutator_local (lift x).
Proof.
  intros w. exists x, (py_random w), []. intros l p o. now rewrite app_nil_r.
Qed.

Lemma mutator_local_out_of_fuel {A} : mutator_local (@out_of_fuel _ A).
Proof.
  intros w. exists OutOfFuel, (py_random w), []. intros l p o.
  now rewrite app_nil_r.
Qed.

Lemma mutator_local_logging_info (x : LogRecord) :
  mutator_local (logging_info x).
Proof.
  intros w. exists (Ok tt), (py_random w), [x]. intros l p o. reflexivity.
Qed.

Lemma mutator_local_with_py_random {A} (f : Random.Rng -> A * Random.Rng) :
  mutator_local (with_py_random f).
Proof.
  intros w. exists (Ok (fst (f (py_random w)))), (snd (f (py_random w))), [].
  intros l p o. unfold with_py_random, world_with. cbn [py_random].
  destruct (f (py_random w)). now rewrite app_nil_r.
Qed.

Lemma mutator_local_read_output_dict : mutator_local read_output_dict.
Proof.
  intros w. exists (Ok (output_dict w)), (py_random w), []. intros l p o.
  now rewrite app_nil_r.
Qed.

Lemma mutator_local_bind {A B} (m : M A) (k : A -> M B) :
  mutator_local m -> (forall a, mutator_local (k a)) ->
  mutator_local (bind m k).
Proof.
  intros Hm Hk w. destruct (Hm w) as (res & r & s & H).
  destruct res as [a | e | ].
  - destruct (Hk a (world_with r (logged w ++ s) (population w)
                      (own_random w) w)) as (res2 & r2 & s2 & H2).
    exists res2, r2, (s ++ s2). intros l p o.
    unfold bind. rewrite H, app_assoc. exact (H2 (l ++ s) p o).
  - exists (Raise e), r, s. intros l p o. unfold bind. now rewrite H.
  - exists OutOfFuel, r, s. intros l p o. unfold bind. now rewrite H.
Qed.

Ltac local_step :=
  first
    [ apply mutator_local_bind; [ | intros ]
    | apply mutator_local_ret
    | apply mutator_local_lift
    | apply mutator_local_out_of_fuel
    | apply mutator_local_logging_info
    | apply mutator_local_with_py_random
    | apply mutator_local_read_output_dict
    | match goal with
      | |- mutator_local (match ?x with _ => _ end) => destruct x
      end ].

Lemma mutator_local__check_duplicate self program :
  mutator_local (_check_duplicate self program).
Proof. unfold _check_duplicate. repeat local_step. Qed.

Lemma mutator_local__alter_node_idx self program_lst loss_program :
  mutator_local (_alter_node_idx self program_lst loss_program).
Proof.
  unfold _alter_node_idx.
  apply mutator_local_bind;
    [unfold _sample_node_idx_to_mutate; repeat local_step
    | intros [[? ?] ?]].
  destruct (isinstance _ _);
    [unfold _alter_continuous; repeat local_step | repeat local_step].
Qed.

Lemma mutator_local_mutate_loop fuel self old_spec program_spec loss_program :
  mutator_local (mutate_loop fuel self old_spec program_spec loss_program).
Proof.
  induction fuel as [ | fuel IH]; cbn [mutate_loop];
    [apply mutator_local_out_of_fuel | ].
  apply mutator_local_bind; [apply mutator_local__alter_node_idx | intros sp].
  destruct (build_program _ _ _ _) as [lp valid].
  destruct valid; cbn [negb]; [ | exact IH].
  apply mutator_local_bind;
    [apply mutator_local__check_duplicate | intros [[? ?] ?]].
  repeat local_step.
Qed.

Lemma mutator_local_mutate fuel self dna :
  mutator_local (mutate fuel self dna).
Proof.
  unfold mutate.
  apply mutator_local_bind; [apply mutator_local_with_py_random | intros coin].
  destruct (PrimFloat.ltb _ _).
  - apply mutator_local_bind; [apply mutator_local_logging_info | intros _].
    destruct (build_program _ _ _ _). apply mutator_local_mutate_loop.
  - repeat local_step.
Qed.

(** The effects of a mutator computation are confined to the module-level
    generator and the log, to which it appends. *)
Lemma mutator_local_confined {A} (m : M A) (w : World) :
  mutator_local m ->
  exists r s, snd (m w) = set_ambient r (logged w ++ s) w.
Proof.
  intros H. destruct (H w) as (res & r & s & Hw).
  specialize (Hw (logged w) (population w) (own_random w)).
  rewrite world_with_same in Hw. exists r, s. rewrite Hw. reflexivity.
Qed.

(** Its result and the generator it leaves depend on the module-level
    generator and the mapping only. *)
Lemma mutator_local_reads {A} (m : M A) (w w2 : World) :
  mutator_local m ->
  py_random w2 = py_random w -> output_dict w2 = output_dict w ->
  fst (m w2) = fst (m w) /\
  py_random (snd (m w2)) = py_random (snd (m w)).
Proof.
  intros H Hr Hd. destruct (H w) as (res & r & s & Hw).
  assert (H1 := Hw (logged w) (population w) (own_random w)).
  assert (H2 := Hw (logged w2) (population w2) (own_random w2)).
  rewrite world_with_same in H1.
  assert (Heq : world_with (py_random w) (logged w2) (population w2)
                  (own_random w2) w = w2).
  { unfold world_with. rewrite <- Hr, <- Hd. now destruct w2. }
  rewrite Heq in H2. rewrite H1, H2. split; reflexivity.
Qed.

Lemma select_parent_logged (fuel : nat) (self : CGSRegularizedEvolution)
    (w : World) :
  logged (snd (select_parent fuel self w)) = logged w.
Proof.
  unfold select_parent, bind, read_population.
  destruct (len (population w) =? population_size self)%Z; cbn [py_assert];
    [ | reflexivity].
  cbn [ret raise]. rewrite with_self_random_eq.
  assert (Hp : forall r, logged (advance_self_random r w) = logged w)
    by (intros r; unfold advance_self_random; destruct (own_random w);
        reflexivity).
  destruct (fst _) as [t | e | ]; cbn [lift]; try apply Hp.
  destruct (max_by_reward t); apply Hp.
Qed.

Lemma propose_logged (fuel : nat) (self : CGSRegularizedEvolution)
    (w : World) :
  exists s, logged (snd (propose fuel self w)) = logged w ++ s.
Proof.
  unfold propose, bind at 1. unfold read_population.
  destruct (_ <? _)%Z.
  - exists []. unfold bind, with_py_random.
    destruct (sample_valid_program_spec _ _ _ _ _ _).
    cbn. now rewrite app_nil_r.
  - unfold bind. assert (Hs := select_parent_logged fuel self w).
    destruct (select_parent fuel self w) as [[[t sel] | e | ] w1];
      cbn [snd] in *; try (exists []; now rewrite app_nil_r).
    destruct (mutator_local_confined
                (mutate fuel (mutator self)
                   (use_spec (clone (ind_dna sel)) (dna_spec self))) w1
                (mutator_local_mutate _ _ _)) as (r & s & Hm).
    exists s. rewrite Hm. cbn. now rewrite Hs.
Qed.

(** C9 (as the code has it). A call of [mutate] changes nothing but the
    module-level generator and the log, to which it appends: the
    fingerprint-to-reward mapping, the population and the controller's own
    generator are as before.  The duplicate check changes nothing at all.
    [propose] leaves the mapping and the population as they were and
    appends to the log.  [feedback] is the one that writes the mapping:
    afterwards it is the old mapping with the reward stored under the
    genome's fingerprint. *)
Theorem mutate_touches_only_generator_and_log (fuel : nat)
    (self : CGSRegularizedEvolution) (program : CompiledProgram) (dna : DNA)
    (reward : float) (w : World) :
  (exists r s,
     snd (mutate fuel (mutator self) dna w)
     = set_ambient r (logged w ++ s) w) /\
  output_dict (snd (mutate fuel (mutator self) dna w)) = output_dict w /\
  population (snd (mutate fuel (mutator self) dna w)) = population w /\
  own_random (snd (mutate fuel (mutator self) dna w)) = own_random w /\
  snd (_check_duplicate (mutator self) program w) = w /\
  output_dict (snd (propose fuel self w)) = output_dict w /\
  population (snd (propose fuel self w)) = population w /\
  (exists s, logged (snd (propose fuel self w)) = logged w ++ s) /\
  output_dict (snd (feedback self dna reward w)) =
    dict_set (output_dict w) (to_json_value_last dna) reward.
Proof.
  destruct (mutator_local_confined (mutate fuel (mutator self) dna) w
              (mutator_local_mutate _ _ _)) as (r & s & Hm).
  split; [exists r, s; exact Hm | ].
  rewrite Hm. repeat split.
  - now rewrite _check_duplicate_eq.
  - apply keeps_output_dict_propose.
  - apply propose_population.
  - apply propose_logged.
  - apply feedback_output_dict.
Qed.

Lemma select_parent_seeded (fuel : nat) (self : CGSRegularizedEvolution)
    (w : World) (r ambient : Random.Rng) (l : list LogRecord) :
  own_random w = Some r ->
  select_parent fuel self (set_ambient ambient l w) =
  (fst (select_parent fuel self w),
   set_ambient ambient l (snd (select_parent fuel self w))) /\
  py_random (snd (select_parent fuel self w)) = py_random w.
Proof.
  intros Ho. unfold select_parent, bind, read_population.
  cbn [population set_ambient].
  destruct (len (population w) =? population_size self)%Z; cbn [py_assert];
    [ | split; reflexivity].
  cbn [ret raise]. unfold with_self_random. cbn [own_random set_ambient].
  rewrite Ho.
  destruct (Random.sample fuel (population w) (tournament_size self) r)
    as [[t | e | ] r']; cbn [lift]; try (split; reflexivity).
  destruct (max_by_reward t); split; reflexivity.
Qed.

Lemma mutate_coin_true (fuel : nat) (m : DAGPointMutator) (dna : DNA)
    (w : World) :
  PrimFloat.ltb (fst (Random.random (py_random w)))
                (mutation_probability m) = true ->
  mutate fuel m dna w =
  mutate_loop fuel m (dna_spec_of dna) (template_decode dna)
    (fst (build_program (input_nodes m) (template_decode dna)
            (operators m) 0))
    (set_ambient (snd (Random.random (py_random w)))
       (logged w ++ [LogDecoding]) w).
Proof.
  intros Hcoin. unfold mutate, bind at 1. unfold with_py_random at 1.
  destruct (Random.random (py_random w)) as [coin r1]. cbn [fst snd] in *.
  rewrite Hcoin. unfold bind, logging_info.
  destruct (build_program _ _ _ _). reflexivity.
Qed.

Lemma target_drawn_from_module_generator (m : DAGPointMutator)
    (program : CompiledProgram) (w : World) (idxs : list Z) (node_idx : Z)
    (op : Node) :
  (let all :=
     range (len (input_nodes m) + num_freeze_ops m)
           (len (ops_lst program)) in
   if adjust_loss_weight m then Ok all else del_last all) = Ok idxs ->
  fst (Random.choice idxs (py_random w)) = Ok node_idx ->
  getitem (ops_lst program) node_idx = Ok op ->
  _sample_node_idx_to_mutate m program w =
  (Ok (node_idx, (node_idx - len (input_nodes m))%Z, op),
   set_ambient (snd (Random.choice idxs (py_random w)))
     (logged w ++ [LogMutatingOp op]) w).
Proof.
  intros Hidxs Hchoice Hop. unfold _sample_node_idx_to_mutate.
  cbv zeta in Hidxs.
  unfold bind at 1.
  destruct (adjust_loss_weight m).
  - injection Hidxs as <-. cbn [ret].
    unfold bind at 1, with_py_random.
    destruct (Random.choice _ (py_random w)) as [c r1]. cbn [fst snd] in *.
    subst c. unfold bind, lift, logging_info, ret. cbn. rewrite Hop.
    reflexivity.
  - unfold lift at 1. rewrite Hidxs.
    unfold bind at 1, with_py_random.
    destruct (Random.choice _ (py_random w)) as [c r1]. cbn [fst snd] in *.
    subst c. unfold bind, lift, logging_info, ret. cbn. rewrite Hop.
    reflexivity.
Qed.

Lemma candidate_drawn_from_module_generator (m : DAGPointMutator)
    (program_lst : list (nat * list nat)) (program : CompiledProgram)
    (w w1 : World) (node_idx n_idx : Z) (op : Node)
    (valid_lst : list (nat * list nat)) (count : nat)
    (chosen : nat * list nat) :
  _sample_node_idx_to_mutate m program w = (Ok (node_idx, n_idx, op), w1) ->
  isinstance op LossOpNode = false ->
  valid_lst_of m program node_idx op = Ok (valid_lst, count) ->
  fst (Random.choice valid_lst (py_random w1)) = Ok chosen ->
  _alter_node_idx m program_lst program w =
  (Ok {| program_lst := splice program_lst 0 n_idx chosen;
         loss_weight := loss_weight ProgramSpec_defaults;
         duplicate := duplicate ProgramSpec_defaults;
         reward := reward ProgramSpec_defaults;
         hash_output := hash_output ProgramSpec_defaults |},
   set_ambient (snd (Random.choice valid_lst (py_random w1)))
     (logged w1 ++ [LogTried count; LogTookTime]) w1).
Proof.
  intros Hs Hi Hv Hc. unfold _alter_node_idx, bind at 1. rewrite Hs, Hi.
  unfold bind at 1, lift at 1. rewrite Hv.
  unfold bind, logging_info, with_py_random. cbn.
  destruct (Random.choice valid_lst (py_random w1)) as [c r1].
  cbn [fst snd] in *. subst c. cbn. rewrite <- app_assoc. reflexivity.
Qed.

Lemma loss_weight_drawn_from_module_generator
    (program_lst : list (nat * list nat)) (program : CompiledProgram)
    (w : World) (last_op : Node) (weight : float) :
  getitem (ops_lst program) (-1) = Ok last_op ->
  fst (Random.choice (loss_weights last_op) (py_random w)) = Ok weight ->
  _alter_continuous program_lst program w =
  (Ok {| program_lst := program_lst;
         loss_weight := weight;
         duplicate := duplicate ProgramSpec_defaults;
         reward := reward ProgramSpec_defaults;
         hash_output := hash_output ProgramSpec_defaults |},
   set_ambient (snd (Random.choice (loss_weights last_op) (py_random w)))
     (logged w) w).
Proof.
  intros Hl Hc. unfold _alter_continuous, bind at 1, lift at 1. rewrite Hl.
  unfold bind, with_py_random.
  destruct (Random.choice _ (py_random w)) as [c r1].
  cbn [fst snd] in *. subst c. reflexivity.
Qed.

(** C5 (as the code has it). [setup] with an integer seed gives the
    controller a generator of its own, made from the seed.  When the
    controller has its own generator, the tournament of [propose] is drawn
    from it: it is the same whatever the state of the module-level
    generator, which it leaves untouched.  [mutate] and the warm-up of
    [propose] draw from the module-level generator instead: [mutate] neither
    reads nor advances the controller's generator, its result and the state
    in which it leaves the module-level generator are determined by the
    module-level generator and the mapping, its coin is the next draw of the
    module-level generator, and a fresh specification, in [mutate] and in
    the warm-up, is sampled from the module-level generator; the target
    node, the replacement candidate and the loss weight are choices made
    with the module-level generator, each advancing it. *)
Theorem seeded_generator_drives_only_tournament (fuel : nat)
    (self : CGSRegularizedEvolution) (dna : DNA) (w : World)
    (r ambient : Random.Rng) (l : list LogRecord) :
  own_random w = Some r ->
  let m := mutator self in
  let sampler :=
    sample_valid_program_spec (input_nodes m) (existing_ops m)
      (program_length m) (operators m) (adjust_loss_weight m) in
  (fst (setup self w) = Ok tt ->
   own_random (snd (setup self w)) = option_map Random_of_seed (seed self)) /\
  select_parent fuel self (set_ambient ambient l w) =
    (fst (select_parent fuel self w),
     set_ambient ambient l (snd (select_parent fuel self w))) /\
  py_random (snd (select_parent fuel self w)) = py_random w /\
  (forall p o,
     mutate fuel m dna (set_controller_state p o w) =
     (fst (mutate fuel m dna w),
      set_controller_state p o (snd (mutate fuel m dna w)))) /\
  (forall w2,
     py_random w2 = py_random w -> output_dict w2 = output_dict w ->
     fst (mutate fuel m dna w2) = fst (mutate fuel m dna w) /\
     py_random (snd (mutate fuel m dna w2))
     = py_random (snd (mutate fuel m dna w))) /\
  (PrimFloat.ltb (fst (Random.random (py_random w)))
                 (mutation_probability m) = false ->
   let fresh := sampler (snd (Random.random (py_random w))) in
   mutate fuel m dna w =
   (Ok (use_spec (template_encode (fst fresh)) (dna_spec_of dna)),
    set_ambient (snd fresh) (logged w) w)) /\
  ((len (population w) < population_size self)%Z ->
   let fresh := sampler (py_random w) in
   propose fuel self w =
   (Ok (use_spec (template_encode (fst fresh)) (dna_spec self)),
    set_ambient (snd fresh) (logged w) w)) /\
  (PrimFloat.ltb (fst (Random.random (py_random w)))
                 (mutation_probability m) = true ->
   mutate fuel m dna w =
   mutate_loop fuel m (dna_spec_of dna) (template_decode dna)
     (fst (build_program (input_nodes m) (template_decode dna)
             (operators m) 0))
     (set_ambient (snd (Random.random (py_random w)))
        (logged w ++ [LogDecoding]) w)) /\
  (forall program idxs node_idx op,
     (let all :=
        range (len (input_nodes m) + num_freeze_ops m)
              (len (ops_lst program)) in
      if adjust_loss_weight m then Ok all else del_last all) = Ok idxs ->
     fst (Random.choice idxs (py_random w)) = Ok node_idx ->
     getitem (ops_lst program) node_idx = Ok op ->
     _sample_node_idx_to_mutate m program w =
     (Ok (node_idx, (node_idx - len (input_nodes m))%Z, op),
      set_ambient (snd (Random.choice idxs (py_random w)))
        (logged w ++ [LogMutatingOp op]) w)) /\
  (forall program_lst program w1 node_idx n_idx op valid_lst count chosen,
     _sample_node_idx_to_mutate m program w
     = (Ok (node_idx, n_idx, op), w1) ->
     isinstance op LossOpNode = false ->
     valid_lst_of m program node_idx op = Ok (valid_lst, count) ->
     fst (Random.choice valid_lst (py_random w1)) = Ok chosen ->
     _alter_node_idx m program_lst program w =
     (Ok {| program_lst := splice program_lst 0 n_idx chosen;
            loss_weight := loss_weight ProgramSpec_defaults;
            duplicate := duplicate ProgramSpec_defaults;
            reward := reward ProgramSpec_defaults;
            hash_output := hash_output ProgramSpec_defaults |},
      set_ambient (snd (Random.choice valid_lst (py_random w1)))
        (logged w1 ++ [LogTried count; LogTookTime]) w1)) /\
  (forall program_lst program last_op weight,
     getitem (ops_lst program) (-1) = Ok last_op ->
     fst (Random.choice (loss_weights last_op) (py_random w)) = Ok weight ->
     _alter_continuous program_lst program w =
     (Ok {| program_lst := program_lst;
            loss_weight := weight;
            duplicate := duplicate ProgramSpec_defaults;
            reward := reward ProgramSpec_defaults;
            hash_output := hash_output ProgramSpec_defaults |},
      set_ambient (snd (Random.choice (loss_weights last_op) (py_random w)))
        (logged w) w)).
Proof.
  intros Ho m sampler.
  destruct (select_parent_seeded fuel self w r ambient l Ho) as [Hs1 Hs2].
  split; [ | split; [exact Hs1 | split; [exact Hs2 | ]]].
  - unfold setup, bind, lift.
    destruct (DNAGenerator_setup (dna_spec self)) as [[] | e | ];
      [ | discriminate | discriminate].
    destruct (2 <=? tournament_size self)%Z; cbn [py_assert];
      [ | discriminate].
    destruct (tournament_size self <=? population_size self)%Z;
      cbn [py_assert ret raise]; [ | discriminate].
    intros _. destruct (seed self); reflexivity.
  - split; [ | split; [ | split; [ | split; [ | split; [ | split;
      [ | split]]]]]].
    + intros p o. exact (proj1 (mutator_frame_mutate fuel _ dna w p o)).
    + intros w2. apply mutator_local_reads, mutator_local_mutate.
    + intros Hcoin fresh. subst fresh sampler m.
      unfold mutate, bind at 1. unfold with_py_random at 1.
      destruct (Random.random (py_random w)) as [coin r1]. cbn [fst snd] in *.
      rewrite Hcoin. unfold bind, with_py_random. cbn [py_random].
      destruct (sample_valid_program_spec _ _ _ _ _ r1). reflexivity.
    + intros Hlt fresh. subst fresh sampler m.
      unfold propose, bind, read_population.
      apply Z.ltb_lt in Hlt. rewrite Hlt. unfold with_py_random.
      destruct (sample_valid_program_spec _ _ _ _ _ _). reflexivity.
    + apply mutate_coin_true.
    + intros program idxs node_idx op.
      apply target_drawn_from_module_generator.
    + intros program_lst program w1 node_idx n_idx op valid_lst count chosen.
      apply candidate_drawn_from_module_generator.
    + intros program_lst program last_op weight.
      apply loss_weight_drawn_from_module_generator.
Qed.

(** C10 (as the code has it). Two programs whose summed outputs are NaN or
    infinite have the same fingerprint, the clipped fallback float.  Once a
    reward was recorded under that fingerprint, the duplicate check of any
    such program reports a duplicate, and the reward it reports is the one
    of the last [feedback] that recorded under that fingerprint: rewards
    recorded before it, and rewards recorded after it under other
    fingerprints, do not count. *)
Theorem invalid_programs_report_last_reward (self : CGSRegularizedEvolution)
    (m : DAGPointMutator) (p1 p2 : CompiledProgram)
    (before after : list (DNA * float)) (dna : DNA) (reward : float)
    (w w' : World) :
  uniform_range (rand_float m) = true ->
  numerically_invalid m p1 = true ->
  numerically_invalid m p2 = true ->
  (0 <= population_size self)%Z ->
  to_json_value_last dna = _compute_hash_output m p1 ->
  Forall (fun call => key_eqb (key_of call) (_compute_hash_output m p1)
                      = false) after ->
  output_dict w' =
    output_dict (snd (feedbacks self (before ++ (dna, reward) :: after) w)) ->
  _compute_hash_output m p1 = _compute_hash_output m p2 /\
  _compute_hash_output m p1 =
    Np.clip (rand_float m) Np.finfo_float32_min Np.finfo_float32_max /\
  _check_duplicate m p2 w' =
    (Ok (_compute_hash_output m p1, true, reward), w').
Proof.
  intros Hu H1 H2 Hs Hdna Hafter Hw'.
  assert (Heq : _compute_hash_output m p1 = _compute_hash_output m p2)
    by (rewrite !_compute_hash_output_invalid by assumption; reflexivity).
  split; [exact Heq | ].
  split; [now apply _compute_hash_output_invalid | ].
  rewrite _check_duplicate_eq, Hw', <- Heq.
  rewrite (feedbacks_output_dict self _ Hs), recorded_app.
  change (recorded ((dna, reward) :: after) ?d)
    with (recorded after (dict_set d (to_json_value_last dna) reward)).
  rewrite (dict_get_recorded_other after _ Hafter).
  rewrite dict_get_set_eq; [reflexivity | ].
  rewrite Hdna.
  destruct (_compute_hash_output_finite m p1 Hu) as (Hn & _).
  unfold is_nan in Hn. unfold key_eqb.
  now destruct (PrimFloat.eqb (_compute_hash_output m p1)
                  (_compute_hash_output m p1)).
Qed.

End Locality.

(** * Generators, frame and fallback fingerprint on the toy instance *)

Section OnToyLast.

Import Toy.
#[local] Existing Instance collaborators.
Local Open Scope float_scope.

(** The genomes of the two numerically invalid programs, carrying the
    fallback fingerprint. *)
Let nan_dna : DNA :=
  ({| program_lst := program_lst nan_spec;
      loss_weight := 1;
      duplicate := false;
      reward := 0;
      hash_output := 0.25 |}, 0%nat).

Let inf_dna : DNA :=
  ({| program_lst := program_lst inf_spec;
      loss_weight := 1;
      duplicate := false;
      reward := 0;
      hash_output := 0.25 |}, 0%nat).



(** C9, refuted as stated: a call of [mutate] consumes three draws of the
    module-level generator and writes eight log records, and the same call
    made again on the world it left returns another genome. *)
Lemma mutate_advances_module_generator :
  let w := world_of [0; 1; 3]%N [] [] None in
  let w' := snd (mutate 1 the_mutator chain_dna w) in
  Random.cursor (py_random w) = 0%nat /\
  Random.cursor (py_random w') = 3%nat /\
  logged w = [] /\
  logged w' =
    [LogDecoding; LogMutatingOp (2, 2)%nat; LogTried 4; LogTookTime;
     LogDuplicateCheck; LogEncoding; LogLossWeights 1 1; LogUseSpec] /\
  option_map (fun d : DNA => program_lst (fst d))
    (match fst (mutate 1 the_mutator chain_dna w) with
     | Ok d => Some d
     | _ => None
     end)
  = Some [(1, [0]); (2, [0]); (0, [2])]%nat /\
  fst (mutate 1 the_mutator chain_dna w')
  <> fst (mutate 1 the_mutator chain_dna w).
Proof. repeat split; try reflexivity. vm_compute. discriminate. Qed.

(** C5 (as the code has it) at a controller seeded with 7 whose own
    generator draws positions 1 and 0. *)
Lemma seeded_generator_drives_only_tournament_witness :
  let self := the_controller in
  let m := mutator self in
  let a := individual_of (chain_dna, 1) in
  let b := individual_of (chain_dna, 2) in
  let r := rng_of [1; 0]%N in
  let w := world_of [0; 1; 3]%N [] [a; b] (Some r) in
  let ambient := rng_of [5]%N in
  let l := [LogDecoding] in
  own_random w = Some r /\
  own_random (snd (setup self w)) = Some (Random_of_seed 7) /\
  select_parent 1 self (set_ambient ambient l w) =
    (fst (select_parent 1 self w),
     set_ambient ambient l (snd (select_parent 1 self w))) /\
  py_random (snd (select_parent 1 self w)) = py_random w /\
  (forall p o,
     mutate 1 m chain_dna (set_controller_state p o w) =
     (fst (mutate 1 m chain_dna w),
      set_controller_state p o (snd (mutate 1 m chain_dna w)))) /\
  (forall w2,
     py_random w2 = py_random w -> output_dict w2 = output_dict w ->
     fst (mutate 1 m chain_dna w2) = fst (mutate 1 m chain_dna w) /\
     py_random (snd (mutate 1 m chain_dna w2))
     = py_random (snd (mutate 1 m chain_dna w))).
Proof.
  intros self m a b r w ambient l.
  split; [reflexivity | ].
  destruct (seeded_generator_drives_only_tournament 1 self chain_dna w r
              ambient l eq_refl)
    as (Hsetup & Hsel & Hleft & Hctl & Hreads & _).
  split; [exact (Hsetup eq_refl) | ].
  split; [exact Hsel | ]. split; [exact Hleft | ].
  split; [exact Hctl | exact Hreads].
Defined.

(** C10, refuted as stated: a reward 7 is recorded for the program
    input -> Nan -> Loss, then a reward 9 for input -> Inf -> Loss; both are
    numerically invalid and have the fallback fingerprint 0.25.  A
    numerically invalid program checked afterwards is reported as a
    duplicate with reward 9, not with the first program's 7. *)
Lemma later_invalid_program_overwrites_reward :
  let w := world_of []%N [] [] None in
  let w1 := snd (feedbacks the_controller [(nan_dna, 7)] w) in
  let w2 := snd (feedbacks the_controller [(nan_dna, 7); (inf_dna, 9)] w) in
  numerically_invalid the_mutator nan_program = true /\
  numerically_invalid the_mutator inf_program = true /\
  to_json_value_last nan_dna = _compute_hash_output the_mutator nan_program /\
  to_json_value_last inf_dna = _compute_hash_output the_mutator inf_program /\
  fst (_check_duplicate the_mutator inf_program w1) = Ok (0.25, true, 7) /\
  fst (_check_duplicate the_mutator nan_program w2) = Ok (0.25, true, 9) /\
  fst (_check_duplicate the_mutator inf_program w2) = Ok (0.25, true, 9).
Proof. repeat split; reflexivity. Qed.

(** C10 (as the code has it): the reward 7 recorded for input -> Nan -> Loss
    is reported for input -> Inf -> Loss after a later reward was recorded
    under the fingerprint 3 of the chain. *)
Lemma invalid_programs_report_last_reward_witness :
  let self := the_controller in
  let m := the_mutator in
  let chain_recorded : DNA :=
    ({| program_lst := program_lst fresh_spec;
        loss_weight := 1;
        duplicate := false;
        reward := 0;
        hash_output := 3 |}, 0%nat) in
  let after := [(chain_recorded, 5)] in
  let w := world_of []%N [] [] None in
  let w' := snd (feedbacks self ([] ++ (nan_dna, 7) :: after) w) in
  uniform_range (rand_float m) = true /\
  numerically_invalid m nan_program = true /\
  numerically_invalid m inf_program = true /\
  (0 <= population_size self)%Z /\
  to_json_value_last nan_dna = _compute_hash_output m nan_program /\
  Forall (fun call => key_eqb (key_of call)
                        (_compute_hash_output m nan_program) = false) after /\
  _compute_hash_output m nan_program = _compute_hash_output m inf_program /\
  _compute_hash_output m nan_program =
    Np.clip (rand_float m) Np.finfo_float32_min Np.finfo_float32_max /\
  _check_duplicate m inf_program w' =
    (Ok (_compute_hash_output m nan_program, true, 7), w').
Proof.
  intros self m chain_recorded after w w'.
  assert (H0 : (0 <= population_size self)%Z) by (simpl; lia).
  assert (Hafter : Forall (fun call =>
                     key_eqb (key_of call)
                       (_compute_hash_output m nan_program) = false) after)
    by (repeat constructor).
  split; [reflexivity | ]. split; [reflexivity | ].
  split; [reflexivity | ]. split; [exact H0 | ].
  split; [reflexivity | ]. split; [exact Hafter | ].
  exact (invalid_programs_report_last_reward self m nan_program inf_program
           [] after nan_dna 7 w w'
           eq_refl eq_refl eq_refl H0 eq_refl Hafter eq_refl).
Defined.

End OnToyLast.
